(** * MSCAN driver (Old_CW_projects/Axman/Sources/mscan.c)

    A shallow embedding of the CAN driver for the MC9S12C32's MSCAN
    controller, and the properties of its transmit path, receive mailbox and
    interrupt handler.

    The driver talks to the controller through a 64-byte block of
    memory-mapped registers.  The block is a list of bytes indexed by the
    register's offset; the driver's own statics ([rxbuffer],
    [data_available_flag]) and the CPU's interrupt mask complete the state.
    Every function of the driver is a computation over that state which may
    finish, spin forever in a busy-wait, or run outside an object. *)

From Stdlib Require Import ZArith Lia Bool.
From stdpp Require Import base numbers list relations.

Local Open Scope Z_scope.

(** ** Register block *)

(** Modelled from the spec: [mc9s12c32.h], the vendor header that declares
    the registers, is not among the sources.  The spec treats the registers
    as "memory-mapped control/status/data registers" with "sequential
    data-segment registers"; the offsets below are those of the MSCAN block
    (control and status bytes, the acceptance registers, then the 16-byte
    receive and transmit buffer windows). *)
Definition CANCTL0 : nat := 0.
Definition CANCTL1 : nat := 1.
Definition CANBTR0 : nat := 2.
Definition CANBTR1 : nat := 3.
Definition CANRFLG : nat := 4.
Definition CANRIER : nat := 5.
Definition CANTFLG : nat := 6.
Definition CANTBSEL : nat := 10.
Definition CANIDAC : nat := 11.
Definition CANIDAR0 : nat := 16.
Definition CANIDMR0 : nat := 20.
Definition CANRXDSR0 : nat := 36.
Definition CANRXDLR : nat := 44.
Definition CANTXIDR0 : nat := 48.
Definition CANTXDSR0 : nat := 52.
Definition CANTXDLR : nat := 60.
Definition CANTXTBPR : nat := 61.
Definition CANTXTSRH : nat := 62.
Definition CANTXTSRL : nat := 63.
Definition MSCAN_SIZE : nat := 64.

(** Bit fields of the registers the driver touches (mask within the byte). *)
Definition CANCTL0_INITRQ : Z := 0x01.
Definition CANCTL0_TIME : Z := 0x08.
Definition CANCTL1_INITAK : Z := 0x01.
Definition CANCTL1_LISTEN : Z := 0x10.
Definition CANCTL1_LOOPB : Z := 0x20.
Definition CANCTL1_CLKSRC : Z := 0x40.
Definition CANCTL1_CANE : Z := 0x80.
Definition CANRIER_RXFIE : Z := 0x01.
Definition CANRFLG_RXF_MASK : Z := 0x01.
Definition CANTFLG_TXE_MASK : Z := 0x07.
Definition CANRXDLR_DLC_MASK : Z := 0x0F.

(** Modelled from the spec: [PAYLOAD_SIZE] is defined in [mscan.h], which is
    not among the sources; the spec gives "a fixed-size byte buffer (size =
    protocol's maximum payload, here 8 bytes)". *)
Definition PAYLOAD_SIZE : nat := 8.

(** ** State *)

(** What the driver does that an observer outside the CPU can see: stores to
    the register block, and loads from the payload array of the caller's
    frame. *)
Inductive event : Type :=
| EvStore (a : nat) (v : Z)
| EvPayload (i : nat).

Record world : Type := World {
  regs : list Z;               (* the MSCAN register block, one byte per offset *)
  rxbuffer : list Z;           (* static byte volatile rxbuffer[PAYLOAD_SIZE] *)
  data_available_flag : Z;     (* static byte volatile data_available_flag *)
  imask : bool;                (* the CPU's interrupt mask: true = interrupts disabled *)
  polls : nat;                 (* number of busy-wait polls made so far *)
  trace : list event           (* observable accesses, oldest first *)
}.

Definition set_regs (r : list Z) (w : world) : world :=
  World r (rxbuffer w) (data_available_flag w) (imask w) (polls w) (trace w).
Definition set_rxbuffer (b : list Z) (w : world) : world :=
  World (regs w) b (data_available_flag w) (imask w) (polls w) (trace w).
Definition set_flag (f : Z) (w : world) : world :=
  World (regs w) (rxbuffer w) f (imask w) (polls w) (trace w).
Definition set_imask (m : bool) (w : world) : world :=
  World (regs w) (rxbuffer w) (data_available_flag w) m (polls w) (trace w).
Definition tick (w : world) : world :=
  World (regs w) (rxbuffer w) (data_available_flag w) (imask w) (S (polls w)) (trace w).
Definition emit (e : event) (w : world) : world :=
  World (regs w) (rxbuffer w) (data_available_flag w) (imask w) (polls w) (trace w ++ [e]).

(** The statics as the C initialisers leave them: [rxbuffer] zeroed,
    [data_available_flag] 0. *)
Definition statics_initial (w : world) : Prop :=
  rxbuffer w = replicate PAYLOAD_SIZE 0 /\ data_available_flag w = 0.

(** ** Computations *)

Inductive outcome (A : Type) : Type :=
| Ok (a : A) (w : world)   (* the code ran to its end *)
| Spin                     (* a busy-wait loop was still polling when the fuel ran out *)
| Fault.                   (* an access outside the object it indexes *)
Arguments Ok {A} a w.
Arguments Spin {A}.
Arguments Fault {A}.

Definition M (A : Type) : Type := world -> outcome A.

#[global] Instance M_ret : MRet M := fun A a w => Ok a w.
#[global] Instance M_bind : MBind M := fun A B f m w =>
  match m w with
  | Ok a w' => f a w'
  | Spin => Spin
  | Fault => Fault
  end.

Definition fault {A : Type} : M A := fun _ => Fault.

(** [for (i = i0; i < i0 + n; i++) body(i)] *)
Fixpoint for_loop (n : nat) (i : nat) (body : nat -> M unit) : M unit :=
  match n with
  | O => mret tt
  | S n' => body i ;; for_loop n' (S i) body
  end.

(** ** The controller's side of the register block *)

(** The buffer the controller selects when [v] is stored to CANTBSEL: the
    lowest-numbered set bit (source comment: "Select lowest tx buffer using tx
    buffer empty flags"). *)
Definition lowest_tx (v : Z) : Z :=
  if Z.testbit v 0 then 1
  else if Z.testbit v 1 then 2
  else if Z.testbit v 2 then 4
  else 0.

(** What the block holds after the CPU stores [v] at offset [a].  The flag
    registers clear the flags written as 1 (source comments: "Release tx
    buffer for transmission by clearing the associated flag", "Clear RXF flag
    to release rx buffer"); CANTBSEL keeps the selected buffer only; every
    other register keeps the byte. *)
Definition controller_store (a : nat) (v : Z) (r : list Z) : list Z :=
  if decide (a = CANTBSEL) then <[a := lowest_tx v]> r
  else if decide (a = CANTFLG) then
    <[a := Z.ldiff (r !!! a) (Z.land v CANTFLG_TXE_MASK)]> r
  else if decide (a = CANRFLG) then <[a := Z.ldiff (r !!! a) v]> r
  else <[a := v]> r.

(** Load of the byte at offset [a]. *)
Definition load (a : nat) : M Z := fun w =>
  match regs w !! a with
  | Some v => Ok v w
  | None => Fault
  end.

(** Store of the byte [v] at offset [a]. *)
Definition store (a : nat) (v : Z) : M unit := fun w =>
  if decide (a < length (regs w))%nat
  then Ok tt (emit (EvStore a v) (set_regs (controller_store a v (regs w)) w))
  else Fault.

(** The byte [v] with the bits under [mask] replaced by those of [x]. *)
Definition field_set (v mask x : Z) : Z := Z.lor (Z.ldiff v mask) (Z.land x mask).

(** Assignment to a bit field of a register: read, modify, write. *)
Definition field_store (a : nat) (mask : Z) (x : Z) : M unit :=
  v ← load a; store a (field_set v mask x).

(** [DisableInterrupts] and [EnableInterrupts] of [hidef.h]: set and clear
    the CPU's interrupt mask. *)
Definition DisableInterrupts : M unit := fun w => Ok tt (set_imask true w).
Definition EnableInterrupts : M unit := fun w => Ok tt (set_imask false w).

(** ** Receive mailbox *)

Definition rxbuffer_load (i : nat) : M Z := fun w =>
  match rxbuffer w !! i with
  | Some v => Ok v w
  | None => Fault
  end.

Definition rxbuffer_store (i : nat) (v : Z) : M unit := fun w =>
  if decide (i < length (rxbuffer w))%nat
  then Ok tt (set_rxbuffer (<[i := v]> (rxbuffer w)) w)
  else Fault.

(** [*((byte* )message + i) = rxbuffer[i]] for [i] from [i] on, [n] times;
    [message] is the caller's object, as bytes. *)
Fixpoint CANget_copy (n i : nat) (message : list Z) : M (list Z) :=
  match n with
  | O => mret message
  | S n' =>
      b ← rxbuffer_load i;
      if decide (i < length message)%nat
      then CANget_copy n' (S i) (<[i := b]> message)
      else fault
  end.

(** [void CANget(dataMessage *message)] *)
Definition CANget (message : list Z) : M (list Z) :=
  DisableInterrupts ;;
  message' ← CANget_copy PAYLOAD_SIZE 0 message;
  EnableInterrupts ;;
  mret message'.

(** [byte data_available(void)] *)
Definition data_available : M Z := fun w => Ok (data_available_flag w) w.

(** [void data_used(void)] *)
Definition data_used : M unit :=
  DisableInterrupts ;;
  (fun w => Ok tt (set_flag 0 w)) ;;
  EnableInterrupts.

(** [interrupt VectorNumber_Vcanrx void CANreceiveISR(void)] *)
Definition CANreceiveISR : M unit :=
  dlr ← load CANRXDLR;
  let length := Z.land dlr CANRXDLR_DLC_MASK in
  for_loop (Z.to_nat length) 0
    (fun i => v ← load (CANRXDSR0 + i)%nat; rxbuffer_store i v) ;;
  h ← load CANTXTSRH;
  l ← load CANTXTSRL;
  let timestamp := Z.lor (Z.shiftl h 8 mod 2 ^ 16) l in
  (fun w => Ok tt (set_flag 1 w)) ;;
  store CANRFLG CANRFLG_RXF_MASK.

(** The controller's half of a reception: the frame's length code and data
    bytes appear in the receive window and the receive-buffer-full flag is
    raised.  Not a CPU access, so nothing is traced. *)
Definition rx_deliver (dlc : Z) (data : list Z) : M unit := fun w =>
  Ok tt (set_regs
           (<[CANRFLG := Z.lor (regs w !!! CANRFLG) CANRFLG_RXF_MASK]>
              (<[CANRXDLR := dlc]>
                 (list_inserts CANRXDSR0 (take PAYLOAD_SIZE data) (regs w)))) w).

(** A frame arrives and the CPU takes the receive interrupt. *)
Definition receive (dlc : Z) (data : list Z) : M unit :=
  rx_deliver dlc data ;; CANreceiveISR.

(** ** A read racing with the handler *)

(** [CANget] one statement at a time, so that the handler can be placed
    between any two of them. *)
Inductive pc : Type :=
| AtDisable            (* about to run DisableInterrupts *)
| AtCopy (i : nat)     (* about to copy rxbuffer[i] *)
| AtEnable             (* about to run EnableInterrupts *)
| AtReturn.            (* CANget has returned *)

Record reader : Type := Reader { reader_pc : pc; reader_message : list Z }.

Definition CANget_step (f : reader) : M reader :=
  match reader_pc f with
  | AtDisable =>
      DisableInterrupts ;;
      mret (Reader (if decide (0 < PAYLOAD_SIZE)%nat then AtCopy 0 else AtEnable)
                   (reader_message f))
  | AtCopy i =>
      message' ← CANget_copy 1 i (reader_message f);
      mret (Reader (if decide (S i < PAYLOAD_SIZE)%nat then AtCopy (S i) else AtEnable)
                   message')
  | AtEnable => EnableInterrupts ;; mret (Reader AtReturn (reader_message f))
  | AtReturn => mret f
  end.

(** One step of the system: the reader runs its next statement, or, when
    interrupts are not masked, a frame arrives and the handler runs to its
    end. *)
Inductive race_step : reader * world -> reader * world -> Prop :=
| step_reader f w f' w' :
    reader_pc f <> AtReturn ->
    CANget_step f w = Ok f' w' ->
    race_step (f, w) (f', w')
| step_handler f w dlc data w' :
    imask w = false ->
    receive dlc data w = Ok tt w' ->
    race_step (f, w) (f, w').

(** Steps of the handler alone. *)
Inductive handler_step : world -> world -> Prop :=
| handler_fires w dlc data w' :
    imask w = false ->
    receive dlc data w = Ok tt w' ->
    handler_step w w'.

(** ** Frames *)

(** Modelled from the spec: the [CANframe] struct is declared in [mscan.h],
    which is not among the sources.  The spec gives its fields: an "11-bit
    identifier", a "payload (0-8 bytes)", a "length" byte and "a transmit
    priority value"; [CANsend] reads [id], [length], [payload] and
    [priority]. *)
Module CANframe.
Record t : Type := mk {
  id : Z;
  priority : Z;
  length : Z;
  payload : list Z
}.
Definition set_length (n : Z) (f : t) : t := mk (id f) (priority f) n (payload f).
End CANframe.

(** [frame->payload[i]] *)
Definition payload_load (frame : CANframe.t) (i : nat) : M Z := fun w =>
  match CANframe.payload frame !! i with
  | Some b => Ok b (emit (EvPayload i) w)
  | None => Fault
  end.

(** Stores wider than a byte reach the block high byte first (the CPU12 is
    big-endian). *)
Definition store_word (a : nat) (v : Z) : M unit :=
  store a (Z.shiftr v 8 mod 256) ;;
  store (a + 1)%nat (v mod 256).

Definition store_dword (a : nat) (v : Z) : M unit :=
  store a (Z.shiftr v 24 mod 256) ;;
  store (a + 1)%nat (Z.shiftr v 16 mod 256) ;;
  store (a + 2)%nat (Z.shiftr v 8 mod 256) ;;
  store (a + 3)%nat (v mod 256).

(** The 16-bit word a register pair holds. *)
Definition word_at (r : list Z) (a : nat) : Z :=
  r !!! a * 256 + r !!! (a + 1)%nat.

(** ** Bus timing and filter macros *)

(** Modelled from the spec: the [SET_MSCAN_*] and [MSCAN_ACC_MODE] macros and
    their [MSCAN_*] arguments are defined in [mscan.h], which is not among the
    sources.  The spec has the initializer "program clock source, prescaler,
    timing segments, sync-jump width, and sample mode" and "select a filter
    scheme using combined 16-bit acceptance filters"; the source names the
    quantities (prescaler value 1, time segment 1 of 4 quanta, time segment 2
    of 3 quanta, jump width of 4 quanta, one sample per bit, four 16-bit
    filters).  Each constant is the quantity it names and each macro assigns
    the register field that holds it, which stores the quantity less one. *)
Definition MSCAN_CLK_SRC_BUS : Z := 1.
Definition MSCAN_PRESCALE_1 : Z := 1.
Definition MSCAN_TIME_SEG1_4 : Z := 4.
Definition MSCAN_TIME_SEG2_3 : Z := 3.
Definition MSCAN_SJW_4TQ : Z := 4.
Definition MSCAN_SAMPLE_1 : Z := 1.
Definition MSCAN_ACC_4_16 : Z := 1.

Definition CANBTR0_BRP : Z := 0x3F.
Definition CANBTR0_SJW : Z := 0xC0.
Definition CANBTR1_TSEG1 : Z := 0x0F.
Definition CANBTR1_TSEG2 : Z := 0x70.
Definition CANBTR1_SAMP : Z := 0x80.
Definition CANIDAC_IDAM : Z := 0x30.

Definition SET_MSCAN_CLK_SRC (x : Z) : M unit :=
  field_store CANCTL1 CANCTL1_CLKSRC (Z.shiftl x 6).
Definition SET_MSCAN_PRESCALE (x : Z) : M unit :=
  field_store CANBTR0 CANBTR0_BRP (x - 1).
Definition SET_MSCAN_TIME_SEG1 (x : Z) : M unit :=
  field_store CANBTR1 CANBTR1_TSEG1 (x - 1).
Definition SET_MSCAN_TIME_SEG2 (x : Z) : M unit :=
  field_store CANBTR1 CANBTR1_TSEG2 (Z.shiftl (x - 1) 4).
Definition SET_MSCAN_JUMP_WIDTH (x : Z) : M unit :=
  field_store CANBTR0 CANBTR0_SJW (Z.shiftl (x - 1) 6).
Definition SET_MSCAN_SAMPLE_BITS (x : Z) : M unit :=
  field_store CANBTR1 CANBTR1_SAMP (Z.shiftl (if x =? 1 then 0 else 1) 7).
Definition MSCAN_ACC_MODE (x : Z) : M unit :=
  field_store CANIDAC CANIDAC_IDAM (Z.shiftl x 4).

(** The timing a register block is programmed for, and the source's formula
    [b = f/KN] with [N = 1 + time_seg1 + time_seg2]. *)
Definition prescaler (r : list Z) : Z := Z.land (r !!! CANBTR0) CANBTR0_BRP + 1.
Definition time_seg1 (r : list Z) : Z := Z.land (r !!! CANBTR1) CANBTR1_TSEG1 + 1.
Definition time_seg2 (r : list Z) : Z :=
  Z.shiftr (Z.land (r !!! CANBTR1) CANBTR1_TSEG2) 4 + 1.
Definition quanta_per_bit (r : list Z) : Z := 1 + time_seg1 r + time_seg2 r.
Definition bit_rate (f : Z) (r : list Z) : Z := f / (prescaler r * quanta_per_bit r).

(** "Use bus clock (8MHz) for MSCAN clock source" *)
Definition BUS_CLOCK : Z := 8000000.

(** Modelled from the spec: the controller's acceptance test is hardware.
    The spec has the filter accept "only frames whose identifier matches
    under the mask", a mask bit set meaning "don't care": a received frame,
    seen as the 16-bit word of its first two identifier registers, is
    let in when it agrees with the identifier word on every bit the mask
    leaves clear. *)
Definition accepts (mask code rx : Z) : bool :=
  Z.land (Z.lxor rx code) (Z.lxor mask 0xFFFF) =? 0.

(** The identifier word of a received standard frame: the 11-bit identifier
    above the five low bits [low] (RTR, IDE and the three unused bits). *)
Definition rx_idword (ident low : Z) : Z := Z.lor (Z.shiftl ident 5) low.

(** ** Transmit path and initialisation *)

Section Controller.

(** The byte the controller presents at offset [a] when a busy-wait loop
    polls it for the [t]-th time: the controller's own progress (mode
    acknowledge, end of a transmission) as the CPU sees it. *)
Variable status : nat -> nat -> Z.

(** The compile-time option [USE_LOOPBACK]. *)
Variable USE_LOOPBACK : bool.

Definition poll (a : nat) : M Z := fun w =>
  if decide (a < length (regs w))%nat
  then let v := status (polls w) a in
       Ok v (tick (set_regs (<[a := v]> (regs w)) w))
  else Fault.

(** [while (!done(REG));] *)
Fixpoint wait_until (fuel : nat) (a : nat) (done : Z -> bool) : M unit :=
  match fuel with
  | O => fun _ => Spin
  | S fuel' => v ← poll a; if done v then mret tt else wait_until fuel' a done
  end.

(** [void CANinit(word id)] *)
Definition CANinit (fuel : nat) (id : Z) : M unit :=
  field_store CANCTL1 CANCTL1_CANE CANCTL1_CANE ;;
  field_store CANCTL0 CANCTL0_INITRQ CANCTL0_INITRQ ;;
  wait_until fuel CANCTL1 (fun v => negb (Z.land v CANCTL1_INITAK =? 0)) ;;
  SET_MSCAN_CLK_SRC MSCAN_CLK_SRC_BUS ;;
  SET_MSCAN_PRESCALE MSCAN_PRESCALE_1 ;;
  SET_MSCAN_TIME_SEG1 MSCAN_TIME_SEG1_4 ;;
  SET_MSCAN_TIME_SEG2 MSCAN_TIME_SEG2_3 ;;
  SET_MSCAN_JUMP_WIDTH MSCAN_SJW_4TQ ;;
  SET_MSCAN_SAMPLE_BITS MSCAN_SAMPLE_1 ;;
  field_store CANCTL0 CANCTL0_TIME CANCTL0_TIME ;;
  field_store CANCTL1 CANCTL1_LISTEN 0 ;;
  field_store CANCTL1 CANCTL1_LOOPB (if USE_LOOPBACK then CANCTL1_LOOPB else 0) ;;
  MSCAN_ACC_MODE MSCAN_ACC_4_16 ;;
  store_word CANIDMR0 (Z.lor 0x0007 (Z.lxor (Z.shiftl id 5 mod 2 ^ 16) 0xFFFF)) ;;
  store_word CANIDAR0 (Z.shiftl id 5 mod 2 ^ 16) ;;
  field_store CANCTL0 CANCTL0_INITRQ 0 ;;
  wait_until fuel CANCTL1 (fun v => Z.land v CANCTL1_INITAK =? 0) ;;
  field_store CANRIER CANRIER_RXFIE CANRIER_RXFIE.

(** [byte CANsend(CANframe *frame)]: the status returned and the caller's
    frame as the call leaves it. *)
Definition CANsend (fuel : nat) (frame : CANframe.t) : M (Z * CANframe.t) :=
  flg ← load CANTFLG;
  if Z.land flg CANTFLG_TXE_MASK =? 0 then mret (1, frame) else
  flg ← load CANTFLG;
  store CANTBSEL flg ;;
  txbuffer ← load CANTBSEL;
  store_dword CANTXIDR0 (Z.shiftl (CANframe.id frame) (5 + 16) mod 2 ^ 32) ;;
  let frame :=
    if 8 <? CANframe.length frame then CANframe.set_length 8 frame else frame in
  for_loop (Z.to_nat (CANframe.length frame)) 0
    (fun i => b ← payload_load frame i; store (CANTXDSR0 + i)%nat b) ;;
  store CANTXDLR (CANframe.length frame) ;;
  store CANTXTBPR (CANframe.priority frame) ;;
  store CANTFLG txbuffer ;;
  wait_until fuel CANTFLG (fun v => Z.land v txbuffer =? txbuffer) ;;
  mret (0, frame).

(** The driver's entry points, as an application and the controller invoke
    them one after the other. *)
Inductive op : Type :=
| Call_CANinit (fuel : nat) (id : Z)
| Call_CANsend (fuel : nat) (frame : CANframe.t)
| Call_CANget (message : list Z)
| Call_data_available
| Call_data_used
| Interrupt (dlc : Z) (data : list Z).

Definition run_op (o : op) : M unit :=
  match o with
  | Call_CANinit fuel id => CANinit fuel id
  | Call_CANsend fuel frame => CANsend fuel frame ;; mret tt
  | Call_CANget message => CANget message ;; mret tt
  | Call_data_available => data_available ;; mret tt
  | Call_data_used => data_used
  | Interrupt dlc data => receive dlc data
  end.

Fixpoint run_ops (os : list op) : M unit :=
  match os with
  | [] => mret tt
  | o :: os' => run_op o ;; run_ops os'
  end.

End Controller.

(** The frame as [CANsend] leaves it when it goes on to transmit: the length
    field cut down to 8. *)
Definition clamp_length (frame : CANframe.t) : CANframe.t :=
  if 8 <? CANframe.length frame then CANframe.set_length 8 frame else frame.

(** The accesses of the payload copy loop after [n] rounds. *)
Definition tx_copy_events (payload : list Z) (n : nat) : list event :=
  flat_map (fun i => [EvPayload i; EvStore (CANTXDSR0 + i)%nat (payload !!! i)])
           (seq 0 n).

(** The accesses of a [CANsend] that found a buffer, when CANTFLG read
    [flg]. *)
Definition send_events (flg : Z) (frame : CANframe.t) : list event :=
  let d := Z.shiftl (CANframe.id frame) (5 + 16) mod 2 ^ 32 in
  let frame' := clamp_length frame in
  [EvStore CANTBSEL flg;
   EvStore CANTXIDR0 (Z.shiftr d 24 mod 256);
   EvStore (CANTXIDR0 + 1)%nat (Z.shiftr d 16 mod 256);
   EvStore (CANTXIDR0 + 2)%nat (Z.shiftr d 8 mod 256);
   EvStore (CANTXIDR0 + 3)%nat (d mod 256)]
  ++ tx_copy_events (CANframe.payload frame) (Z.to_nat (CANframe.length frame'))
  ++ [EvStore CANTXDLR (CANframe.length frame');
      EvStore CANTXTBPR (CANframe.priority frame');
      EvStore CANTFLG (lowest_tx flg)].

(** The register block [r'] is [r] with a frame loaded in the transmit
    window by a [CANsend] that read [flg] from CANTFLG: buffer selection,
    identifier bytes, the first [n] payload bytes ([n] the clamped length),
    length and priority; CANTFLG aside, nothing else differs. *)
Definition loaded (flg : Z) (frame : CANframe.t) (r r' : list Z) : Prop :=
  let d := Z.shiftl (CANframe.id frame) (5 + 16) mod 2 ^ 32 in
  let n := Z.to_nat (CANframe.length (clamp_length frame)) in
  length r' = length r /\
  r' !! CANTBSEL = Some (lowest_tx flg) /\
  r' !! CANTXIDR0 = Some (Z.shiftr d 24 mod 256) /\
  r' !! (CANTXIDR0 + 1)%nat = Some (Z.shiftr d 16 mod 256) /\
  r' !! (CANTXIDR0 + 2)%nat = Some (Z.shiftr d 8 mod 256) /\
  r' !! (CANTXIDR0 + 3)%nat = Some (d mod 256) /\
  (forall i, (i < n)%nat -> r' !! (CANTXDSR0 + i)%nat = CANframe.payload frame !! i) /\
  r' !! CANTXDLR = Some (CANframe.length (clamp_length frame)) /\
  r' !! CANTXTBPR = Some (CANframe.priority frame) /\
  (forall a, a <> CANTFLG -> a <> CANTBSEL -> a <> CANTXDLR -> a <> CANTXTBPR ->
     ~ (CANTXIDR0 <= a < CANTXDSR0 + n)%nat -> r' !! a = r !! a).

(** The payload indices a run loaded, and the stores it made to the
    data-segment registers of the transmit window, both in order. *)
Definition payload_reads (evs : list event) : list nat :=
  omap (fun e => match e with EvPayload i => Some i | EvStore _ _ => None end) evs.

Definition data_stores (evs : list event) : list (nat * Z) :=
  omap (fun e => match e with
                 | EvStore a v =>
                     if decide (CANTXDSR0 <= a < CANTXDLR)%nat then Some (a, v) else None
                 | EvPayload _ => None
                 end) evs.

(** What one entry point may do to the mailbox: the handler sets the flag to
    1 (and is the only one that may write [rxbuffer]); [data_used] clears the
    flag to 0 and leaves [rxbuffer]; every other entry point leaves both. *)
Definition op_effect (o : op) (w w' : world) : Prop :=
  match o with
  | Interrupt _ _ => data_available_flag w' = 1
  | Call_data_used => data_available_flag w' = 0 /\ rxbuffer w' = rxbuffer w
  | _ => data_available_flag w' = data_available_flag w /\ rxbuffer w' = rxbuffer w
  end.

(** The value a computation returned, if it ran to its end. *)
Definition returned {A : Type} (o : outcome A) : option A :=
  match o with
  | Ok a _ => Some a
  | Spin => None
  | Fault => None
  end.

(** ** A simulated peripheral *)

(** A register block out of reset with the three transmit buffers empty, and
    a controller that acknowledges the initialisation request on the first
    poll, its withdrawal on the next, and reports every transmit buffer empty
    whenever asked (an always-free buffer). *)
Definition sim_regs : list Z := <[CANTFLG := 7]> (replicate MSCAN_SIZE 0).

Definition sim_world : world :=
  World sim_regs (replicate PAYLOAD_SIZE 0) 0 false 0%nat [].

Definition sim_status (t a : nat) : Z :=
  if decide (a = CANTFLG) then 7
  else if decide (a = CANCTL1) then (if decide (t = 0%nat) then 0x81 else 0x80)
  else 0.

(** The same block with a three-byte frame in the receive window, and a
    mailbox that still holds an older eight-byte message. *)
Definition sim_rx_world : world :=
  World (<[CANRXDLR := 3]> (list_inserts CANRXDSR0 [0xA1; 0xA2; 0xA3] sim_regs))
        [1; 2; 3; 4; 5; 6; 7; 8] 0 false 0%nat [].

(** A session on the simulated peripheral: initialise, receive a three-byte
    frame, poll, read, consume, send. *)
Definition sim_frame : CANframe.t := CANframe.mk 0x123 0 3 [1; 2; 3; 0; 0; 0; 0; 0].

Definition sim_session_start : list op :=
  [Call_CANinit 5 0x123; Interrupt 3 [0xA1; 0xA2; 0xA3; 0; 0; 0; 0; 0];
   Call_data_available; Call_CANget (replicate 8 0)].

Definition sim_session_end : list op := [Call_CANsend 5 sim_frame].

Definition sim_session_world : world :=
  match run_ops sim_status false
          (sim_session_start ++ Call_data_used :: sim_session_end) sim_world with
  | Ok _ w => w
  | Spin => sim_world
  | Fault => sim_world
  end.

Definition sim_long_frame : CANframe.t :=
  CANframe.mk 0x123 9 12 [1; 2; 3; 4; 5; 6; 7; 8; 9; 10; 11; 12].

(** The filter registers [CANinit] computes for identifier [id]: the
    identifier word [id << 5] and the mask word [0x0007 | ~(id << 5)], both
    in 16 bits. *)
Definition filter_code (id : Z) : Z := Z.shiftl id 5 mod 2 ^ 16.
Definition filter_mask (id : Z) : Z := Z.lor 0x0007 (Z.lxor (filter_code id) 0xFFFF).

(** [n] statements of the reader in a row, no handler in between. *)
Fixpoint reader_run (n : nat) (f : reader) (w : world) : option (reader * world) :=
  match n with
  | O => Some (f, w)
  | S n' =>
      match reader_pc f with
      | AtReturn => None
      | _ =>
          match CANget_step f w with
          | Ok f' w' => reader_run n' f' w'
          | Spin => None
          | Fault => None
          end
      end
  end.

(** Where a reader that started with [message] before the state [w0] has
    got to in [(f, w)]: handler runs only until it disables interrupts, then
    its copy loop alone, then (once it has returned) handler runs again. *)
Definition race_inv (message : list Z) (w0 : world) (s : reader * world) : Prop :=
  let (f, w) := s in
  match reader_pc f with
  | AtDisable => reader_message f = message /\ rtc handler_step w0 w
  | AtCopy i =>
      exists w1, rtc handler_step w0 w1 /\ (i < PAYLOAD_SIZE)%nat /\
        (DisableInterrupts ;; CANget_copy i 0 message) w1 = Ok (reader_message f) w
  | AtEnable =>
      exists w1, rtc handler_step w0 w1 /\
        (DisableInterrupts ;; CANget_copy PAYLOAD_SIZE 0 message) w1
          = Ok (reader_message f) w
  | AtReturn =>
      exists w1 w2, rtc handler_step w0 w1 /\
        CANget message w1 = Ok (reader_message f) w2 /\
        rtc handler_step w2 w
  end.

(** Two frames for the simulated peripheral, eight bytes then three, the
    state after the handler ran for both, and the state after a [CANget]
    that follows. *)
Definition sim_first : list Z := [1; 2; 3; 4; 5; 6; 7; 8].
Definition sim_second : list Z := [0xA1; 0xA2; 0xA3; 0; 0; 0; 0; 0].

Definition sim_one_frame_world : world :=
  match receive 8 sim_first sim_world with
  | Ok _ w => w
  | Spin => sim_world
  | Fault => sim_world
  end.

Definition sim_two_frames_world : world :=
  match (receive 8 sim_first ;; receive 3 sim_second) sim_world with
  | Ok _ w => w
  | Spin => sim_world
  | Fault => sim_world
  end.

Definition sim_read_world : world := set_imask false sim_two_frames_world.

(** ** More simulated inputs *)

(** A controller that never acknowledges anything and never reports a
    transmit buffer empty. *)
Definition silent_status (t a : nat) : Z := 0.

(** The simulated block with a receive window whose length code is 9, and
    the simulated reception state with interrupts masked by the caller. *)
Definition sim_overflow_world : world :=
  set_regs (<[CANRXDLR := 9]> sim_regs) sim_world.

Definition sim_masked_world : world := set_imask true sim_rx_world.

(** A frame with nothing to send, not even a payload array. *)
Definition sim_empty_frame : CANframe.t := CANframe.mk 0x123 0 0 [].

(** The simulated block after [CANinit]. *)
Definition sim_init_world : world :=
  match CANinit sim_status false 5 0x123 sim_world with
  | Ok _ w => w
  | Spin => sim_world
  | Fault => sim_world
  end.

(** The same two calls, each made with interrupts disabled. *)
Definition sim_masked_init_world : world :=
  match CANinit sim_status false 5 0x123 sim_masked_world with
  | Ok _ w => w
  | Spin => sim_world
  | Fault => sim_world
  end.

Definition sim_masked_sent_world : world :=
  match CANsend sim_status 5 sim_frame sim_masked_world with
  | Ok _ w => w
  | Spin => sim_world
  | Fault => sim_world
  end.

(** The frame [f] with [i] for identifier, and a result of [CANsend] with the
    returned frame's identifier replaced alike. *)
Definition with_id (i : Z) (f : CANframe.t) : CANframe.t :=
  CANframe.mk i (CANframe.priority f) (CANframe.length f) (CANframe.payload f).

Definition result_with_id (i : Z) (o : outcome (Z * CANframe.t)) : outcome (Z * CANframe.t) :=
  match o with
  | Ok (st, f) w => Ok (st, with_id i f) w
  | Spin => Spin
  | Fault => Fault
  end.

(** ** The other acceptance filters *)

(** Modelled from the spec: [mc9s12c32.h] is not among the sources.  These
    are the register pairs of the second, third and fourth 16-bit acceptance
    filter, which the lines of [CANinit] that are commented out name; the
    offsets are those of the MSCAN block. *)
Definition CANIDAR2 : nat := 18.
Definition CANIDMR2 : nat := 22.
Definition CANIDAR4 : nat := 24.
Definition CANIDAR6 : nat := 26.
Definition CANIDMR4 : nat := 28.
Definition CANIDMR6 : nat := 30.

Definition other_filter_words : list nat :=
  [CANIDAR2; CANIDMR2; CANIDAR4; CANIDMR4; CANIDAR6; CANIDMR6].

(** The registers [CANinit] stores to or polls. *)
Definition CANinit_registers : list nat :=
  [CANCTL0; CANCTL1; CANBTR0; CANBTR1; CANRIER; CANIDAC;
   CANIDAR0; (CANIDAR0 + 1)%nat; CANIDMR0; (CANIDMR0 + 1)%nat].

(** The bytes a run stored to register [a], in order. *)
Definition stores_to (a : nat) (evs : list event) : list Z :=
  omap (fun e => match e with
                 | EvStore a' v => if decide (a' = a) then Some v else None
                 | EvPayload _ => None
                 end) evs.

(** A register block with other time stamp bytes. *)
Definition sim_stamped_regs : list Z :=
  <[CANTXTSRH := 0xAB]> (<[CANTXTSRL := 0xCD]> (regs sim_rx_world)).

(** ** Reasoning about computations *)

(** [m] started in [w] runs to its end, and [Q] holds of its result and of
    the state it leaves. *)
Definition wp {A : Type} (m : M A) (Q : A -> world -> Prop) (w : world) : Prop :=
  match m w with
  | Ok a w' => Q a w'
  | Spin => False
  | Fault => False
  end.

(** If [m] started in [w] runs to its end, [Q] holds of its result and of
    the state it leaves. *)
Definition wlp {A : Type} (m : M A) (Q : A -> world -> Prop) (w : world) : Prop :=
  match m w with
  | Ok a w' => Q a w'
  | Spin => True
  | Fault => True
  end.

(** [w'] has the statics and the interrupt mask of [w]. *)
Definition same_statics (w w' : world) : Prop :=
  rxbuffer w' = rxbuffer w /\
  data_available_flag w' = data_available_flag w /\
  imask w' = imask w.

(** [m] touches neither [rxbuffer] nor [data_available_flag] nor the
    interrupt mask. *)
Definition keeps_statics {A : Type} (m : M A) : Prop :=
  forall w, wlp m (fun _ w' => same_statics w w') w.

(** [m] changes no register outside [S]. *)
Definition changes_only (S : list nat) {A : Type} (m : M A) : Prop :=
  forall w, wlp m (fun _ w' => forall a, a ∉ S -> regs w' !! a = regs w !! a) w.

Lemma wp_ok {A : Type} (m : M A) (Q : A -> world -> Prop) (w : world) :
  wp m Q w <-> exists a w', m w = Ok a w' /\ Q a w'.
Proof.
  unfold wp. destruct (m w) as [a w'| |]; split.
  - intros HQ. exists a, w'. split; [reflexivity | exact HQ].
  - intros (a' & w'' & Heq & HQ). inversion Heq; subst. exact HQ.
  - intros [].
  - intros (a' & w'' & Heq & _). discriminate.
  - intros [].
  - intros (a' & w'' & Heq & _). discriminate.
Qed.

Lemma wp_ret {A : Type} (a : A) (Q : A -> world -> Prop) (w : world) :
  Q a w -> wp (mret a) Q w.
Proof. intros HQ. exact HQ. Qed.

Lemma wp_bind {A B : Type} (m : M A) (f : A -> M B) (Q : B -> world -> Prop) (w : world) :
  wp m (fun a w' => wp (f a) Q w') w -> wp (m ≫= f) Q w.
Proof.
  unfold wp, mbind, M_bind. destruct (m w) as [a w'| |]; intros H; exact H.
Qed.

Lemma wp_mono {A : Type} (m : M A) (P Q : A -> world -> Prop) (w : world) :
  wp m P w -> (forall a w', P a w' -> Q a w') -> wp m Q w.
Proof.
  unfold wp. destruct (m w) as [a w'| |]; intros H HPQ; auto.
Qed.

Lemma wp_load (a : nat) (v : Z) (Q : Z -> world -> Prop) (w : world) :
  regs w !! a = Some v -> Q v w -> wp (load a) Q w.
Proof. intros Hv HQ. unfold wp, load. rewrite Hv. exact HQ. Qed.

Lemma wp_store (a : nat) (v : Z) (Q : unit -> world -> Prop) (w : world) :
  (a < length (regs w))%nat ->
  Q tt (emit (EvStore a v) (set_regs (controller_store a v (regs w)) w)) ->
  wp (store a v) Q w.
Proof.
  intros Ha HQ. unfold wp, store. destruct (decide (a < length (regs w))%nat); [exact HQ | contradiction].
Qed.

(** The loop rule: an invariant [I j] that every iteration carries from [j]
    to [S j]. *)
Lemma wp_for_loop (I : nat -> world -> Prop) (body : nat -> M unit) (n i : nat)
    (Q : unit -> world -> Prop) (w : world) :
  I i w ->
  (forall j w', (i <= j < i + n)%nat -> I j w' -> wp (body j) (fun _ w'' => I (S j) w'') w') ->
  (forall w', I (i + n)%nat w' -> Q tt w') ->
  wp (for_loop n i body) Q w.
Proof.
  revert i w. induction n as [|n IH]; intros i w Hi Hbody HQ.
  - simpl. apply wp_ret. apply HQ. replace (i + 0)%nat with i by lia. exact Hi.
  - simpl. apply wp_bind. eapply wp_mono.
    + apply (Hbody i w); [lia | exact Hi].
    + intros [] w' Hi'. apply (IH (S i)).
      * exact Hi'.
      * intros j w'' Hj. apply Hbody. lia.
      * intros w'' Hw''. apply HQ. replace (i + S n)%nat with (S i + n)%nat by lia. exact Hw''.
Qed.

Lemma length_controller_store (a : nat) (v : Z) (r : list Z) :
  length (controller_store a v r) = length r.
Proof.
  unfold controller_store.
  repeat (destruct (decide _)); apply length_insert.
Qed.

(** Away from the three registers with a behaviour of their own, a store
    leaves the byte stored. *)
Lemma controller_store_plain (a : nat) (v : Z) (r : list Z) :
  a <> CANTBSEL -> a <> CANTFLG -> a <> CANRFLG ->
  controller_store a v r = <[a := v]> r.
Proof.
  intros H1 H2 H3. unfold controller_store.
  repeat (destruct (decide _)); congruence.
Qed.

Lemma lookup_controller_store_ne (a b : nat) (v : Z) (r : list Z) :
  a <> b -> controller_store a v r !! b = r !! b.
Proof.
  intros Hab. unfold controller_store.
  repeat (destruct (decide _)); apply list_lookup_insert_ne; exact Hab.
Qed.

(** ** The interrupt handler and the mailbox *)

(** What the handler leaves behind for a length code within the buffer: the
    first [L] bytes of the receive window in the first [L] slots of
    [rxbuffer], the other slots as they were, the flag at 1, and one store,
    to CANRFLG. *)
Lemma CANreceiveISR_spec (w : world) (L : nat) :
  length (regs w) = MSCAN_SIZE ->
  Z.land (regs w !!! CANRXDLR) CANRXDLR_DLC_MASK = Z.of_nat L ->
  (L <= length (rxbuffer w))%nat ->
  exists buf,
    CANreceiveISR w =
      Ok tt (World (controller_store CANRFLG CANRFLG_RXF_MASK (regs w)) buf 1
                   (imask w) (polls w) (trace w ++ [EvStore CANRFLG CANRFLG_RXF_MASK])) /\
    length buf = length (rxbuffer w) /\
    (forall k, (k < L)%nat -> buf !! k = regs w !! (CANRXDSR0 + k)%nat) /\
    (forall k, (L <= k)%nat -> buf !! k = rxbuffer w !! k).
Proof.
  intros Hlen HL Hbuf.
  assert (Hpost : wp CANreceiveISR (fun _ w' =>
            exists buf,
              w' = World (controller_store CANRFLG CANRFLG_RXF_MASK (regs w)) buf 1
                     (imask w) (polls w) (trace w ++ [EvStore CANRFLG CANRFLG_RXF_MASK]) /\
              length buf = length (rxbuffer w) /\
              (forall k, (k < L)%nat -> buf !! k = regs w !! (CANRXDSR0 + k)%nat) /\
              (forall k, (L <= k)%nat -> buf !! k = rxbuffer w !! k)) w).
  { unfold CANreceiveISR, MSCAN_SIZE in *.
    destruct (lookup_lt_is_Some_2 (regs w) CANRXDLR) as [dlr Hdlr]; [unfold CANRXDLR; lia|].
    destruct (lookup_lt_is_Some_2 (regs w) CANTXTSRH) as [h Hh]; [unfold CANTXTSRH; lia|].
    destruct (lookup_lt_is_Some_2 (regs w) CANTXTSRL) as [l Hl]; [unfold CANTXTSRL; lia|].
    apply wp_bind. eapply wp_load; [exact Hdlr|].
    rewrite (list_lookup_total_correct _ _ _ Hdlr) in HL.
    assert (HL15 : (L <= 15)%nat).
    { unfold CANRXDLR_DLC_MASK in HL. change 15 with (Z.ones 4) in HL.
      rewrite Z.land_ones in HL by lia.
      pose proof (Z.mod_pos_bound dlr (2 ^ 4) ltac:(lia)). lia. }
    rewrite HL, Nat2Z.id.
    apply wp_bind.
    apply (wp_for_loop (fun j w' =>
             exists buf, w' = set_rxbuffer buf w /\
               length buf = length (rxbuffer w) /\
               (forall k, (k < j)%nat -> buf !! k = regs w !! (CANRXDSR0 + k)%nat) /\
               (forall k, (j <= k)%nat -> buf !! k = rxbuffer w !! k))).
    - exists (rxbuffer w).
      split; [destruct w; reflexivity|]. split; [reflexivity|].
      split; [intros k Hk; lia | intros k _; reflexivity].
    - intros j w' Hj (buf & -> & Hlb & Hlo & Hhi).
      destruct (lookup_lt_is_Some_2 (regs w) (CANRXDSR0 + j)%nat) as [v Hv];
        [unfold CANRXDSR0; lia|].
      apply wp_bind. eapply wp_load; [exact Hv|].
      unfold wp, rxbuffer_store. cbn [rxbuffer set_rxbuffer].
      destruct (decide (j < length buf)%nat) as [Hjb|Hjb]; [|lia].
      exists (<[j := v]> buf).
      split; [reflexivity|]. split; [|split].
      + rewrite length_insert. exact Hlb.
      + intros k Hk. destruct (decide (k = j)) as [->|Hne].
        * rewrite list_lookup_insert_eq by exact Hjb. symmetry. exact Hv.
        * rewrite list_lookup_insert_ne by congruence. apply Hlo. lia.
      + intros k Hk. rewrite list_lookup_insert_ne by lia. apply Hhi. lia.
    - intros w' (buf & -> & Hlb & Hlo & Hhi).
      apply wp_bind. eapply wp_load; [exact Hh|].
      apply wp_bind. eapply wp_load; [exact Hl|].
      apply wp_bind. unfold wp at 1. apply wp_store.
      + cbn. unfold CANRFLG. lia.
      + exists buf. split; [reflexivity|]. split; [exact Hlb|]. split; assumption. }
  apply wp_ok in Hpost. destruct Hpost as ([] & w' & Heq & buf & -> & Hrest).
  exists buf. split; [exact Heq | exact Hrest].
Qed.

(** The copy loop of [CANget] overwrites bytes [i .. i+n-1] of the caller's
    object with the same bytes of [rxbuffer] and changes nothing else. *)
Lemma CANget_copy_spec (n i : nat) (message : list Z) (w : world) :
  (i + n <= length (rxbuffer w))%nat ->
  (i + n <= length message)%nat ->
  exists message',
    CANget_copy n i message w = Ok message' w /\
    length message' = length message /\
    (forall k, (i <= k < i + n)%nat -> message' !! k = rxbuffer w !! k) /\
    (forall k, ~ (i <= k < i + n)%nat -> message' !! k = message !! k).
Proof.
  revert i message. induction n as [|n IH]; intros i message Hrx Hmsg.
  - exists message. split; [reflexivity|]. split; [reflexivity|].
    split; [intros k Hk; lia | intros k _; reflexivity].
  - destruct (lookup_lt_is_Some_2 (rxbuffer w) i) as [b Hb]; [lia|].
    destruct (IH (S i) (<[i := b]> message)) as (m' & Hrun & Hlen & Hin & Hout).
    + lia.
    + rewrite length_insert. lia.
    + exists m'. split; [|split; [|split]].
      * cbn [CANget_copy]. unfold mbind, M_bind, rxbuffer_load. rewrite Hb.
        destruct (decide (i < length message)%nat); [exact Hrun | lia].
      * rewrite Hlen. apply length_insert.
      * intros k Hk. destruct (decide (k = i)) as [->|Hne].
        -- rewrite Hout by lia. rewrite list_lookup_insert_eq by lia.
           symmetry. exact Hb.
        -- apply Hin. lia.
      * intros k Hk. rewrite Hout by lia. apply list_lookup_insert_ne. lia.
Qed.

(** [CANget] returns the caller's object with its first [PAYLOAD_SIZE]
    bytes replaced by [rxbuffer], and leaves interrupts enabled. *)
Lemma CANget_spec (message : list Z) (w : world) :
  length (rxbuffer w) = PAYLOAD_SIZE ->
  (PAYLOAD_SIZE <= length message)%nat ->
  CANget message w = Ok (rxbuffer w ++ drop PAYLOAD_SIZE message) (set_imask false w).
Proof.
  intros Hrx Hmsg.
  destruct (CANget_copy_spec PAYLOAD_SIZE 0 message (set_imask true w))
    as (m' & Hrun & Hlen & Hin & Hout).
  { cbn [rxbuffer set_imask]. lia. }
  { lia. }
  unfold CANget, mbind, M_bind, DisableInterrupts, EnableInterrupts.
  rewrite Hrun. cbn [rxbuffer set_imask] in *.
  assert (Hm' : m' = rxbuffer w ++ drop PAYLOAD_SIZE message).
  { apply list_eq. intros k. destruct (decide (k < PAYLOAD_SIZE)%nat) as [Hk|Hk].
    - rewrite Hin by lia. rewrite lookup_app_l by lia. reflexivity.
    - rewrite Hout by lia. rewrite lookup_app_r by lia.
      rewrite lookup_drop. f_equal. lia. }
  rewrite Hm'. reflexivity.
Qed.

(** ** Reception (C1) *)

(** C1.  For a message of length [L] between 0 and 8 shown by the receive
    window (length code [L], data bytes in the data-segment registers), the
    handler runs to its end; afterwards [data_available] returns 1 (true),
    and [CANget] yields a buffer whose first [L] bytes are the window's first
    [L] data bytes, in order, and whose bytes from [L] on are those the
    mailbox held before the interrupt. *)
Theorem CANreceiveISR_then_CANget (w : world) (L : nat) (message : list Z) :
  length (regs w) = MSCAN_SIZE ->
  length (rxbuffer w) = PAYLOAD_SIZE ->
  (PAYLOAD_SIZE <= length message)%nat ->
  Z.land (regs w !!! CANRXDLR) CANRXDLR_DLC_MASK = Z.of_nat L ->
  (L <= 8)%nat ->
  exists w1 w2 msg,
    CANreceiveISR w = Ok tt w1 /\
    data_available w1 = Ok 1 w1 /\
    CANget message w1 = Ok msg w2 /\
    (forall k, (k < L)%nat -> msg !! k = regs w !! (CANRXDSR0 + k)%nat) /\
    (forall k, (L <= k < PAYLOAD_SIZE)%nat -> msg !! k = rxbuffer w !! k).
Proof.
  intros Hregs Hrx Hmsg HL HL8.
  destruct (CANreceiveISR_spec w L Hregs HL) as (buf & Hisr & Hlen & Hlo & Hhi).
  { rewrite Hrx. unfold PAYLOAD_SIZE. exact HL8. }
  eexists _, _, _. split; [exact Hisr|]. split; [reflexivity|].
  split.
  - apply CANget_spec; cbn [rxbuffer]; [congruence | exact Hmsg].
  - cbn [rxbuffer]. unfold PAYLOAD_SIZE in *. split.
    + intros k Hk. assert (Hkb : (k < length buf)%nat) by lia.
      rewrite (lookup_app_l _ _ _ Hkb). apply Hlo. exact Hk.
    + intros k Hk. assert (Hkb : (k < length buf)%nat) by lia.
      rewrite (lookup_app_l _ _ _ Hkb). apply Hhi. lia.
Qed.

Lemma CANreceiveISR_then_CANget_witness :
  exists w1 w2 msg,
    CANreceiveISR sim_rx_world = Ok tt w1 /\
    data_available w1 = Ok 1 w1 /\
    CANget (replicate 8 0) w1 = Ok msg w2 /\
    (forall k, (k < 3)%nat -> msg !! k = regs sim_rx_world !! (CANRXDSR0 + k)%nat) /\
    (forall k, (3 <= k < PAYLOAD_SIZE)%nat -> msg !! k = rxbuffer sim_rx_world !! k).
Proof.
  apply (CANreceiveISR_then_CANget sim_rx_world 3 (replicate 8 0));
    [reflexivity | reflexivity | vm_compute; lia | reflexivity | lia].
Defined.

Example CANreceiveISR_short_frame :
  (CANreceiveISR ;; CANget (replicate 8 0)) sim_rx_world =
  Ok [0xA1; 0xA2; 0xA3; 4; 5; 6; 7; 8]
     (World (regs sim_rx_world) [0xA1; 0xA2; 0xA3; 4; 5; 6; 7; 8] 1 false 0%nat
            [EvStore CANRFLG CANRFLG_RXF_MASK]).
Proof. reflexivity. Qed.

(** A frame of [L] bytes arrives and the handler runs: the mailbox holds the
    frame's [L] bytes followed by what it held beyond them. *)
Lemma receive_spec (w : world) (L : nat) (data : list Z) :
  length (regs w) = MSCAN_SIZE ->
  length data = PAYLOAD_SIZE ->
  length (rxbuffer w) = PAYLOAD_SIZE ->
  (L <= PAYLOAD_SIZE)%nat ->
  exists w',
    receive (Z.of_nat L) data w = Ok tt w' /\
    length (regs w') = MSCAN_SIZE /\
    rxbuffer w' = take L data ++ drop L (rxbuffer w) /\
    data_available_flag w' = 1 /\
    imask w' = imask w.
Proof.
  intros Hregs Hdata Hrx HL. unfold MSCAN_SIZE, PAYLOAD_SIZE in *.
  set (r1 := <[CANRFLG := Z.lor (regs w !!! CANRFLG) CANRFLG_RXF_MASK]>
               (<[CANRXDLR := Z.of_nat L]>
                  (list_inserts CANRXDSR0 (take PAYLOAD_SIZE data) (regs w)))).
  assert (Hr1 : length r1 = 64%nat).
  { unfold r1. rewrite !length_insert, length_inserts. exact Hregs. }
  assert (Hdlc : Z.land (r1 !!! CANRXDLR) CANRXDLR_DLC_MASK = Z.of_nat L).
  { unfold r1. rewrite list_lookup_total_insert_ne by (unfold CANRFLG, CANRXDLR; lia).
    rewrite list_lookup_total_insert_eq
      by (rewrite length_inserts; unfold CANRXDLR; lia).
    unfold CANRXDLR_DLC_MASK. change 15 with (Z.ones 4).
    rewrite Z.land_ones by lia. apply Z.mod_small. lia. }
  assert (Hwin : forall k, (k < 8)%nat -> r1 !! (CANRXDSR0 + k)%nat = data !! k).
  { intros k Hk. unfold r1.
    rewrite !list_lookup_insert_ne by (unfold CANRFLG, CANRXDLR, CANRXDSR0; lia).
    rewrite list_lookup_inserts.
    - rewrite lookup_take_lt by (unfold PAYLOAD_SIZE; lia). f_equal. lia.
    - rewrite length_take. unfold PAYLOAD_SIZE. lia.
    - unfold CANRXDSR0. lia. }
  destruct (CANreceiveISR_spec (set_regs r1 w) L) as (buf & Hisr & Hlen & Hlo & Hhi).
  { exact Hr1. }
  { exact Hdlc. }
  { cbn [rxbuffer set_regs]. lia. }
  cbn [regs rxbuffer imask polls trace set_regs] in *.
  eexists. split; [|split; [|split; [|split]]].
  - unfold receive, mbind, M_bind, rx_deliver. fold r1. exact Hisr.
  - cbn [regs]. rewrite length_controller_store. exact Hr1.
  - cbn [rxbuffer]. apply list_eq. intros k.
    destruct (decide (k < L)%nat) as [Hk|Hk].
    + rewrite Hlo by exact Hk. rewrite Hwin by lia.
      rewrite lookup_app_l by (rewrite length_take; lia).
      rewrite lookup_take_lt by exact Hk. reflexivity.
    + rewrite Hhi by lia.
      rewrite lookup_app_r by (rewrite length_take; lia).
      rewrite lookup_drop, length_take. f_equal. lia.
  - reflexivity.
  - reflexivity.
Qed.

(** ** A second frame before the first is consumed (C5) *)

(** C5, as stated, fails: an eight-byte frame followed, with no [data_used]
    in between, by a three-byte frame leaves bytes 3 to 7 of the first frame
    in the mailbox, and [CANget] shows them: two runs that differ in the
    first frame only read different buffers. *)
Lemma receive_twice_older_bytes_observable :
  returned ((receive 8 [1; 2; 3; 4; 5; 6; 7; 8] ;;
             receive 3 [0xA1; 0xA2; 0xA3; 0; 0; 0; 0; 0] ;;
             CANget (replicate 8 0)) sim_world)
    = Some [0xA1; 0xA2; 0xA3; 4; 5; 6; 7; 8] /\
  returned ((receive 8 [11; 12; 13; 14; 15; 16; 17; 18] ;;
             receive 3 [0xA1; 0xA2; 0xA3; 0; 0; 0; 0; 0] ;;
             CANget (replicate 8 0)) sim_world)
    = Some [0xA1; 0xA2; 0xA3; 14; 15; 16; 17; 18].
Proof. split; reflexivity. Qed.

(** C5, amended.  When the handler fires for a second frame of length [L2]
    before [data_used] is called, [CANget] yields the second frame's bytes
    below index [L2]; from [L2] on it yields what the mailbox held before
    the second interrupt: the first frame's bytes below its length [L1], and
    the still older content beyond both lengths. *)
Theorem receive_twice_then_CANget (w : world) (L1 L2 : nat)
    (first second message : list Z) :
  length (regs w) = MSCAN_SIZE ->
  length (rxbuffer w) = PAYLOAD_SIZE ->
  length first = PAYLOAD_SIZE ->
  length second = PAYLOAD_SIZE ->
  (PAYLOAD_SIZE <= length message)%nat ->
  (L1 <= PAYLOAD_SIZE)%nat ->
  (L2 <= PAYLOAD_SIZE)%nat ->
  exists msg w',
    (receive (Z.of_nat L1) first ;; receive (Z.of_nat L2) second ;; CANget message) w
      = Ok msg w' /\
    data_available_flag w' = 1 /\
    (forall k, (k < L2)%nat -> msg !! k = second !! k) /\
    (forall k, (L2 <= k < L1)%nat -> msg !! k = first !! k) /\
    (forall k, (L1 <= k < PAYLOAD_SIZE)%nat -> (L2 <= k)%nat -> msg !! k = rxbuffer w !! k).
Proof.
  intros Hregs Hrx Hfirst Hsecond Hmsg HL1 HL2.
  destruct (receive_spec w L1 first Hregs Hfirst Hrx HL1)
    as (w1 & Hrun1 & Hregs1 & Hbuf1 & _ & _).
  assert (Hrx1 : length (rxbuffer w1) = PAYLOAD_SIZE).
  { rewrite Hbuf1, length_app, length_take, length_drop. lia. }
  destruct (receive_spec w1 L2 second Hregs1 Hsecond Hrx1 HL2)
    as (w2 & Hrun2 & Hregs2 & Hbuf2 & Hflag2 & _).
  assert (Hrx2 : length (rxbuffer w2) = PAYLOAD_SIZE).
  { rewrite Hbuf2, length_app, length_take, length_drop. lia. }
  exists (rxbuffer w2 ++ drop PAYLOAD_SIZE message), (set_imask false w2).
  split; [|split; [exact Hflag2|]].
  { unfold mbind, M_bind. rewrite Hrun1, Hrun2. apply CANget_spec; assumption. }
  assert (Hlook : forall k, (k < PAYLOAD_SIZE)%nat ->
            (rxbuffer w2 ++ drop PAYLOAD_SIZE message) !! k = rxbuffer w2 !! k).
  { intros k Hk. apply lookup_app_l. lia. }
  split; [|split].
  - intros k Hk. rewrite Hlook by lia. rewrite Hbuf2.
    rewrite lookup_app_l by (rewrite length_take; lia).
    apply lookup_take_lt. exact Hk.
  - intros k Hk. rewrite Hlook by lia. rewrite Hbuf2.
    rewrite lookup_app_r by (rewrite length_take; lia).
    rewrite lookup_drop, length_take.
    replace (L2 + (k - L2 `min` length second))%nat with k by lia.
    rewrite Hbuf1. rewrite lookup_app_l by (rewrite length_take; lia).
    apply lookup_take_lt. lia.
  - intros k Hk1 Hk2. rewrite Hlook by lia. rewrite Hbuf2.
    rewrite lookup_app_r by (rewrite length_take; lia).
    rewrite lookup_drop, length_take.
    replace (L2 + (k - L2 `min` length second))%nat with k by lia.
    rewrite Hbuf1. rewrite lookup_app_r by (rewrite length_take; lia).
    rewrite lookup_drop, length_take. f_equal. lia.
Qed.

Lemma receive_twice_then_CANget_witness :
  exists msg w',
    (receive (Z.of_nat 8) [1; 2; 3; 4; 5; 6; 7; 8] ;;
     receive (Z.of_nat 3) [0xA1; 0xA2; 0xA3; 0; 0; 0; 0; 0] ;;
     CANget (replicate 8 0)) sim_world = Ok msg w' /\
    data_available_flag w' = 1 /\
    (forall k, (k < 3)%nat -> msg !! k = [0xA1; 0xA2; 0xA3; 0; 0; 0; 0; 0] !! k) /\
    (forall k, (3 <= k < 8)%nat -> msg !! k = [1; 2; 3; 4; 5; 6; 7; 8] !! k) /\
    (forall k, (8 <= k < PAYLOAD_SIZE)%nat -> (3 <= k)%nat ->
               msg !! k = rxbuffer sim_world !! k).
Proof.
  apply (receive_twice_then_CANget sim_world 8 3
           [1; 2; 3; 4; 5; 6; 7; 8] [0xA1; 0xA2; 0xA3; 0; 0; 0; 0; 0] (replicate 8 0));
    [reflexivity | reflexivity | reflexivity | reflexivity
    | vm_compute; lia | vm_compute; lia | vm_compute; lia].
Defined.

(** ** Code that leaves the mailbox alone *)

Lemma wlp_elim {A : Type} (m : M A) (Q : A -> world -> Prop) (w : world) a w' :
  wlp m Q w -> m w = Ok a w' -> Q a w'.
Proof. unfold wlp. intros H Heq. rewrite Heq in H. exact H. Qed.

Lemma wlp_bind {A B : Type} (m : M A) (f : A -> M B) (Q : B -> world -> Prop) (w : world) :
  wlp m (fun a w' => wlp (f a) Q w') w -> wlp (m ≫= f) Q w.
Proof.
  unfold wlp, mbind, M_bind. destruct (m w) as [a w'| |]; intros H; exact H.
Qed.

Lemma wlp_mono {A : Type} (m : M A) (P Q : A -> world -> Prop) (w : world) :
  wlp m P w -> (forall a w', P a w' -> Q a w') -> wlp m Q w.
Proof.
  unfold wlp. destruct (m w) as [a w'| |]; intros H HPQ; auto.
Qed.

Lemma wlp_true {A : Type} (m : M A) (w : world) : wlp m (fun _ _ => True) w.
Proof. unfold wlp. destruct (m w); exact I. Qed.

Lemma same_statics_refl (w : world) : same_statics w w.
Proof. repeat split. Qed.

Lemma same_statics_trans (w1 w2 w3 : world) :
  same_statics w1 w2 -> same_statics w2 w3 -> same_statics w1 w3.
Proof.
  intros (H1 & H2 & H3) (H4 & H5 & H6). repeat split; congruence.
Qed.

Create HintDb statics.

Lemma keeps_ret {A : Type} (a : A) : keeps_statics (mret a : M A).
Proof. intros w. apply same_statics_refl. Qed.

Lemma keeps_fault {A : Type} : keeps_statics (fault : M A).
Proof. intros w. exact I. Qed.

Lemma keeps_bind {A B : Type} (m : M A) (f : A -> M B) :
  keeps_statics m -> (forall a, keeps_statics (f a)) -> keeps_statics (m ≫= f).
Proof.
  intros Hm Hf w. apply wlp_bind. eapply wlp_mono; [apply Hm|].
  intros a w1 H1. eapply wlp_mono; [apply Hf|].
  intros b w2 H2. cbv beta in H1, H2. exact (same_statics_trans _ _ _ H1 H2).
Qed.

Lemma keeps_load (a : nat) : keeps_statics (load a).
Proof.
  intros w. unfold wlp, load. destruct (regs w !! a); [apply same_statics_refl | exact I].
Qed.

Lemma keeps_store (a : nat) (v : Z) : keeps_statics (store a v).
Proof.
  intros w. unfold wlp, store. destruct (decide _); [repeat split | exact I].
Qed.

Lemma keeps_payload_load (frame : CANframe.t) (i : nat) :
  keeps_statics (payload_load frame i).
Proof.
  intros w. unfold wlp, payload_load.
  destruct (CANframe.payload frame !! i); [repeat split | exact I].
Qed.

Lemma keeps_poll (status : nat -> nat -> Z) (a : nat) : keeps_statics (poll status a).
Proof.
  intros w. unfold wlp, poll. destruct (decide _); [repeat split | exact I].
Qed.

#[local] Hint Resolve keeps_ret keeps_fault keeps_load keeps_store
  keeps_payload_load keeps_poll : statics.
#[local] Hint Extern 2 (keeps_statics (_ ≫= _)) =>
  apply keeps_bind; [|intros ?] : statics.

Lemma keeps_for_loop (n i : nat) (body : nat -> M unit) :
  (forall j, keeps_statics (body j)) -> keeps_statics (for_loop n i body).
Proof.
  intros Hbody. revert i. induction n as [|n IH]; intros i; simpl; auto with statics.
Qed.

Lemma keeps_wait_until (status : nat -> nat -> Z) (fuel a : nat) (done : Z -> bool) :
  keeps_statics (wait_until status fuel a done).
Proof.
  induction fuel as [|fuel IH]; simpl.
  - intros w. exact I.
  - apply keeps_bind; [auto with statics|].
    intros v. destruct (done v); auto with statics.
Qed.

Lemma keeps_field_store (a : nat) (mask x : Z) : keeps_statics (field_store a mask x).
Proof. unfold field_store. auto with statics. Qed.

Lemma keeps_store_word (a : nat) (v : Z) : keeps_statics (store_word a v).
Proof. unfold store_word. auto with statics. Qed.

Lemma keeps_store_dword (a : nat) (v : Z) : keeps_statics (store_dword a v).
Proof. unfold store_dword. auto 8 with statics. Qed.

#[local] Hint Resolve keeps_for_loop keeps_wait_until keeps_field_store
  keeps_store_word keeps_store_dword : statics.

Lemma keeps_CANinit (status : nat -> nat -> Z) (lb : bool) (fuel : nat) (id : Z) :
  keeps_statics (CANinit status lb fuel id).
Proof.
  unfold CANinit, SET_MSCAN_CLK_SRC, SET_MSCAN_PRESCALE, SET_MSCAN_TIME_SEG1,
    SET_MSCAN_TIME_SEG2, SET_MSCAN_JUMP_WIDTH, SET_MSCAN_SAMPLE_BITS, MSCAN_ACC_MODE.
  repeat (apply keeps_bind; [auto with statics | intros ?]).
  auto with statics.
Qed.

Lemma keeps_CANsend (status : nat -> nat -> Z) (fuel : nat) (frame : CANframe.t) :
  keeps_statics (CANsend status fuel frame).
Proof.
  unfold CANsend.
  apply keeps_bind; [auto with statics | intros flg].
  destruct (Z.land flg CANTFLG_TXE_MASK =? 0); [auto with statics|].
  repeat (apply keeps_bind; [auto with statics | intros ?]).
  auto with statics.
Qed.

(** ** The mailbox invariant (C10) *)

Lemma CANget_copy_world (n i : nat) (message : list Z) (w : world) :
  wlp (CANget_copy n i message) (fun _ w' => w' = w) w.
Proof.
  revert i message. induction n as [|n IH]; intros i message.
  - reflexivity.
  - cbn [CANget_copy]. apply wlp_bind. unfold wlp at 1, rxbuffer_load.
    destruct (rxbuffer w !! i) as [b|]; [|exact I].
    destruct (decide (i < length message)%nat); [apply IH | exact I].
Qed.

Lemma CANget_world (message : list Z) (w : world) :
  wlp (CANget message) (fun _ w' => w' = set_imask false w) w.
Proof.
  unfold CANget. apply wlp_bind. unfold wlp at 1, DisableInterrupts.
  apply wlp_bind. eapply wlp_mono; [apply CANget_copy_world|].
  intros m' w' ->. reflexivity.
Qed.

Lemma wlp_for_loop (I : world -> Prop) (body : nat -> M unit) (n i : nat) (w : world) :
  I w ->
  (forall j w', I w' -> wlp (body j) (fun _ w'' => I w'') w') ->
  wlp (for_loop n i body) (fun _ w' => I w') w.
Proof.
  intros Hw Hbody. revert i w Hw. induction n as [|n IH]; intros i w Hw.
  - exact Hw.
  - cbn [for_loop]. apply wlp_bind. eapply wlp_mono; [apply Hbody; exact Hw|].
    intros [] w' Hw'. apply IH. exact Hw'.
Qed.

Lemma CANreceiveISR_sets_flag (w : world) :
  wlp CANreceiveISR (fun _ w' => data_available_flag w' = 1 /\ imask w' = imask w) w.
Proof.
  unfold CANreceiveISR.
  apply wlp_bind. eapply wlp_mono; [apply keeps_load|]. intros dlr w1 (_ & _ & Hm1).
  apply wlp_bind. eapply wlp_mono.
  { apply (wlp_for_loop (fun w' => imask w' = imask w1)); [reflexivity|].
    intros j w0 Hw0. apply wlp_bind.
    eapply wlp_mono; [apply keeps_load|]. intros v w0' (_ & _ & Hm0).
    unfold wlp, rxbuffer_store. destruct (decide _); [|exact I].
    cbn [imask set_rxbuffer]. congruence. }
  intros [] w2 Hm2. cbv beta in Hm2.
  apply wlp_bind. eapply wlp_mono; [apply keeps_load|]. intros h w3 (_ & _ & Hm3).
  apply wlp_bind. eapply wlp_mono; [apply keeps_load|]. intros l w4 (_ & _ & Hm4).
  apply wlp_bind. unfold wlp at 1.
  eapply wlp_mono; [apply keeps_store|]. intros [] w5 (_ & Hf5 & Hm5).
  cbn [data_available_flag imask set_flag] in *. split; congruence.
Qed.

Lemma receive_sets_flag (dlc : Z) (data : list Z) (w : world) :
  wlp (receive dlc data) (fun _ w' => data_available_flag w' = 1 /\ imask w' = imask w) w.
Proof.
  unfold receive. apply wlp_bind. unfold wlp at 1, rx_deliver.
  apply (CANreceiveISR_sets_flag (set_regs _ w)).
Qed.

(** Each entry point does to the mailbox what [op_effect] allows and no
    more. *)
Lemma run_op_effect (status : nat -> nat -> Z) (lb : bool) (o : op) (w w' : world) :
  run_op status lb o w = Ok tt w' -> op_effect o w w'.
Proof.
  intros Hrun. destruct o as [fuel id|fuel frame|message| | |dlc data]; cbn [run_op op_effect] in *.
  - destruct (wlp_elim _ _ _ _ _ (keeps_CANinit status lb fuel id w) Hrun) as (Hb & Hf & _).
    split; assumption.
  - assert (Hk : keeps_statics (CANsend status fuel frame ;; mret tt))
      by (apply keeps_bind; [apply keeps_CANsend | intros ?; apply keeps_ret]).
    destruct (wlp_elim _ _ _ _ _ (Hk w) Hrun) as (Hb & Hf & _). split; assumption.
  - assert (Hw : wlp (CANget message ;; mret tt) (fun _ w' => w' = set_imask false w) w).
    { apply wlp_bind. eapply wlp_mono; [apply CANget_world|]. intros m' w1 ->. reflexivity. }
    rewrite (wlp_elim _ _ _ _ _ Hw Hrun). split; reflexivity.
  - inversion Hrun; subst. split; reflexivity.
  - inversion Hrun; subst. split; reflexivity.
  - exact (proj1 (wlp_elim _ _ _ _ _ (receive_sets_flag dlc data w) Hrun)).
Qed.

Lemma run_ops_app (status : nat -> nat -> Z) (lb : bool) (os1 os2 : list op) (w : world) :
  run_ops status lb (os1 ++ os2) w =
  (run_ops status lb os1 ;; run_ops status lb os2) w.
Proof.
  revert w. induction os1 as [|o os1 IH]; intros w.
  - reflexivity.
  - cbn [app run_ops]. unfold mbind, M_bind in *.
    destruct (run_op status lb o w) as [[] w1| |]; [apply IH | reflexivity | reflexivity].
Qed.

Lemma flag_after_op (o : op) (w w' : world) :
  data_available_flag w = 0 \/ data_available_flag w = 1 ->
  op_effect o w w' ->
  data_available_flag w' = 0 \/ data_available_flag w' = 1.
Proof.
  intros Hw He. destruct o; cbn [op_effect] in He.
  1-4: destruct He as [Hf _]; rewrite Hf; exact Hw.
  - left. exact (proj1 He).
  - right. exact He.
Qed.

Lemma flag_after_ops (status : nat -> nat -> Z) (lb : bool) (os : list op) (w w' : world) :
  data_available_flag w = 0 \/ data_available_flag w = 1 ->
  run_ops status lb os w = Ok tt w' ->
  data_available_flag w' = 0 \/ data_available_flag w' = 1.
Proof.
  revert w. induction os as [|o os IH]; intros w Hw Hrun.
  - inversion Hrun; subst. exact Hw.
  - cbn [run_ops] in Hrun. unfold mbind, M_bind in Hrun.
    destruct (run_op status lb o w) as [[] w1| |] eqn:Ho; try discriminate.
    apply (IH w1); [|exact Hrun].
    eapply flag_after_op; [exact Hw|]. eapply run_op_effect. exact Ho.
Qed.

(** C10.  Along any sequence of calls and interrupts that starts from the
    statics as initialised (flag 0), the availability flag is 0 or 1 before
    and after every entry point and at the end, and every entry point [o] of
    the sequence treats the mailbox as [op_effect] says: [data_available],
    [CANget], [CANinit] and [CANsend] change neither the flag nor
    [rxbuffer]; only the handler may write [rxbuffer], and it leaves the flag
    at 1; [data_used] alone clears the flag, to 0. *)
Theorem mailbox_invariant (status : nat -> nat -> Z) (lb : bool)
    (os1 : list op) (o : op) (os2 : list op) (w w' : world) :
  statics_initial w ->
  run_ops status lb (os1 ++ o :: os2) w = Ok tt w' ->
  exists w1 w2,
    run_ops status lb os1 w = Ok tt w1 /\
    run_op status lb o w1 = Ok tt w2 /\
    run_ops status lb os2 w2 = Ok tt w' /\
    (data_available_flag w1 = 0 \/ data_available_flag w1 = 1) /\
    (data_available_flag w2 = 0 \/ data_available_flag w2 = 1) /\
    (data_available_flag w' = 0 \/ data_available_flag w' = 1) /\
    op_effect o w1 w2.
Proof.
  intros [_ Hflag] Hrun. rewrite run_ops_app in Hrun.
  unfold mbind, M_bind in Hrun.
  destruct (run_ops status lb os1 w) as [[] w1| |] eqn:H1; try discriminate.
  cbn [run_ops] in Hrun. unfold mbind, M_bind in Hrun.
  destruct (run_op status lb o w1) as [[] w2| |] eqn:H2; try discriminate.
  assert (Hf1 : data_available_flag w1 = 0 \/ data_available_flag w1 = 1).
  { eapply flag_after_ops; [left; exact Hflag | exact H1]. }
  assert (He : op_effect o w1 w2) by (eapply run_op_effect; exact H2).
  assert (Hf2 : data_available_flag w2 = 0 \/ data_available_flag w2 = 1).
  { eapply flag_after_op; eassumption. }
  exists w1, w2. repeat (split; [first [reflexivity | assumption]|]).
  split; [|exact He].
  eapply flag_after_ops; [exact Hf2 | exact Hrun].
Qed.

Lemma mailbox_invariant_witness :
  exists w1 w2,
    run_ops sim_status false sim_session_start sim_world = Ok tt w1 /\
    run_op sim_status false Call_data_used w1 = Ok tt w2 /\
    run_ops sim_status false sim_session_end w2 = Ok tt sim_session_world /\
    (data_available_flag w1 = 0 \/ data_available_flag w1 = 1) /\
    (data_available_flag w2 = 0 \/ data_available_flag w2 = 1) /\
    (data_available_flag sim_session_world = 0 \/
     data_available_flag sim_session_world = 1) /\
    op_effect Call_data_used w1 w2.
Proof.
  apply (mailbox_invariant sim_status false sim_session_start Call_data_used
           sim_session_end sim_world sim_session_world).
  - split; reflexivity.
  - vm_compute. reflexivity.
Defined.

(** ** The transmit path *)

(** A busy-wait ends at the first poll that shows what it waits for. *)
Lemma wp_wait_until (status : nat -> nat -> Z) (fuel a : nat) (done : Z -> bool)
    (k : nat) (w : world) :
  (a < length (regs w))%nat ->
  done (status (polls w + k)%nat a) = true ->
  (k < fuel)%nat ->
  wp (wait_until status fuel a done)
     (fun _ w' => exists k', (k' <= k)%nat /\
        w' = World (<[a := status (polls w + k')%nat a]> (regs w)) (rxbuffer w)
               (data_available_flag w) (imask w) (S (polls w + k')) (trace w) /\
        done (status (polls w + k')%nat a) = true) w.
Proof.
  revert fuel w. induction k as [|k IH]; intros fuel w Ha Hdone Hfuel.
  - destruct fuel as [|fuel]; [lia|]. cbn [wait_until]. apply wp_bind.
    unfold wp at 1, poll. destruct (decide (a < length (regs w))%nat); [|lia].
    replace (polls w + 0)%nat with (polls w) in Hdone by lia. rewrite Hdone.
    apply wp_ret. exists 0%nat. split; [lia|].
    replace (polls w + 0)%nat with (polls w) by lia. split; [reflexivity | exact Hdone].
  - destruct fuel as [|fuel]; [lia|]. cbn [wait_until]. apply wp_bind.
    unfold wp at 1, poll. destruct (decide (a < length (regs w))%nat); [|lia].
    destruct (done (status (polls w) a)) eqn:Hnow.
    + apply wp_ret. exists 0%nat. split; [lia|].
      replace (polls w + 0)%nat with (polls w) by lia. split; [reflexivity | exact Hnow].
    + eapply wp_mono.
      * apply IH.
        -- cbn [regs tick set_regs]. rewrite length_insert. lia.
        -- cbn [polls tick set_regs]. replace (S (polls w) + k)%nat with (polls w + S k)%nat by lia.
           exact Hdone.
        -- lia.
      * intros [] w' (k' & Hk' & -> & Hk'done). exists (S k'). split; [lia|].
        cbn [regs rxbuffer data_available_flag imask polls trace tick set_regs] in *.
        rewrite list_insert_insert_eq.
        replace (S (polls w) + k')%nat with (polls w + S k')%nat in * by lia.
        split; [reflexivity | exact Hk'done].
Qed.

Lemma tx_copy_events_S (payload : list Z) (j : nat) :
  tx_copy_events payload (S j) =
  tx_copy_events payload j ++ [EvPayload j; EvStore (CANTXDSR0 + j)%nat (payload !!! j)].
Proof.
  unfold tx_copy_events. rewrite seq_S, flat_map_app. cbn [flat_map "++" Nat.add].
  reflexivity.
Qed.

Ltac addr :=
  unfold CANTFLG, CANTBSEL, CANRFLG, CANTXIDR0, CANTXDSR0, CANTXDLR, CANTXTBPR,
    CANIDAR0, CANIDMR0, CANCTL0, CANCTL1, CANBTR0, CANBTR1, CANIDAC, CANRIER,
    MSCAN_SIZE in *;
  lia.

Ltac world_simpl :=
  unfold emit, set_regs, set_flag, set_imask, set_rxbuffer, tick;
  cbn [regs rxbuffer data_available_flag imask polls trace].

(** The payload copy loop: [n] bytes of the frame's payload go to the first
    [n] data-segment registers, in order, one load and one store a byte. *)
Lemma tx_copy_spec (frame : CANframe.t) (n : nat) (w : world) :
  length (regs w) = MSCAN_SIZE ->
  (n <= 8)%nat ->
  (n <= length (CANframe.payload frame))%nat ->
  wp (for_loop n 0
        (fun i => b ← payload_load frame i; store (CANTXDSR0 + i)%nat b))
     (fun _ w' => exists r,
        w' = World r (rxbuffer w) (data_available_flag w) (imask w) (polls w)
               (trace w ++ tx_copy_events (CANframe.payload frame) n) /\
        length r = MSCAN_SIZE /\
        (forall i, (i < n)%nat -> r !! (CANTXDSR0 + i)%nat = CANframe.payload frame !! i) /\
        (forall a, ~ (CANTXDSR0 <= a < CANTXDSR0 + n)%nat -> r !! a = regs w !! a)) w.
Proof.
  intros Hregs Hn Hpay.
  apply (wp_for_loop (fun j w' => exists r,
        w' = World r (rxbuffer w) (data_available_flag w) (imask w) (polls w)
               (trace w ++ tx_copy_events (CANframe.payload frame) j) /\
        length r = MSCAN_SIZE /\
        (forall i, (i < j)%nat -> r !! (CANTXDSR0 + i)%nat = CANframe.payload frame !! i) /\
        (forall a, ~ (CANTXDSR0 <= a < CANTXDSR0 + j)%nat -> r !! a = regs w !! a))).
  - exists (regs w). split; [|split; [exact Hregs|split]].
    + unfold tx_copy_events. cbn [seq flat_map]. rewrite app_nil_r. destruct w; reflexivity.
    + intros i Hi. lia.
    + intros a _. reflexivity.
  - intros j w' Hj (r & -> & Hlen & Hlo & Hout).
    destruct (lookup_lt_is_Some_2 (CANframe.payload frame) j) as [b Hb]; [lia|].
    apply wp_bind. unfold wp at 1, payload_load. rewrite Hb.
    apply wp_store; [world_simpl; addr|].
    world_simpl. rewrite controller_store_plain by addr.
    exists (<[(CANTXDSR0 + j)%nat := b]> r). split; [|split; [|split]].
    + rewrite tx_copy_events_S, (list_lookup_total_correct _ _ _ Hb).
      rewrite <- !app_assoc. reflexivity.
    + rewrite length_insert. exact Hlen.
    + intros i Hi. destruct (decide (i = j)) as [->|Hne].
      * rewrite list_lookup_insert_eq by addr. symmetry. exact Hb.
      * rewrite list_lookup_insert_ne by lia. apply Hlo. lia.
    + intros a Ha. rewrite list_lookup_insert_ne by lia. apply Hout. lia.
  - intros w' Hw'. exact Hw'.
Qed.

Lemma clamp_length_fields (frame : CANframe.t) :
  CANframe.id (clamp_length frame) = CANframe.id frame /\
  CANframe.priority (clamp_length frame) = CANframe.priority frame /\
  CANframe.payload (clamp_length frame) = CANframe.payload frame /\
  CANframe.length (clamp_length frame) = Z.min (CANframe.length frame) 8.
Proof.
  unfold clamp_length. destruct (8 <? CANframe.length frame) eqn:Hlt.
  - apply Z.ltb_lt in Hlt. cbn. repeat split. lia.
  - apply Z.ltb_ge in Hlt. repeat split. lia.
Qed.

Ltac reg_len :=
  world_simpl; rewrite ?length_controller_store, ?length_insert; addr.

(** One store of straight-line code: the block is long enough, and the
    state after it is put back in the form [World ...]. *)
Ltac wp_store_step := apply wp_store; [reg_len | world_simpl].

(** [CANsend] with a free buffer: it returns 0 once the controller shows the
    selected buffer's flag again, leaves the clamped frame, and has loaded
    the transmit window. *)
Lemma CANsend_accepted (status : nat -> nat -> Z) (fuel : nat) (frame : CANframe.t)
    (w : world) (flg : Z) (k : nat) :
  length (regs w) = MSCAN_SIZE ->
  regs w !! CANTFLG = Some flg ->
  Z.land flg CANTFLG_TXE_MASK <> 0 ->
  (Z.to_nat (CANframe.length (clamp_length frame)) <= length (CANframe.payload frame))%nat ->
  Z.land (status (polls w + k)%nat CANTFLG) (lowest_tx flg) = lowest_tx flg ->
  (k < fuel)%nat ->
  wp (CANsend status fuel frame)
     (fun res w' =>
        res = (0, clamp_length frame) /\
        same_statics w w' /\
        trace w' = trace w ++ send_events flg frame /\
        loaded flg frame (regs w) (regs w')) w.
Proof.
  intros Hregs Hflg Htxe Hpay Hdone Hfuel.
  destruct (clamp_length_fields frame) as (Hid & Hprio & Hpl & Hlen).
  assert (Hn : (Z.to_nat (CANframe.length (clamp_length frame)) <= 8)%nat) by lia.
  set (d := Z.shiftl (CANframe.id frame) (5 + 16) mod 2 ^ 32).
  set (r5 := <[(CANTXIDR0 + 3)%nat := d mod 256]>
               (<[(CANTXIDR0 + 2)%nat := Z.shiftr d 8 mod 256]>
                  (<[(CANTXIDR0 + 1)%nat := Z.shiftr d 16 mod 256]>
                     (<[CANTXIDR0 := Z.shiftr d 24 mod 256]>
                        (<[CANTBSEL := lowest_tx flg]> (regs w)))))).
  assert (Hr5 : length r5 = MSCAN_SIZE) by (unfold r5; rewrite !length_insert; exact Hregs).
  assert (Hsel : controller_store CANTBSEL flg (regs w) = <[CANTBSEL := lowest_tx flg]> (regs w)).
  { unfold controller_store. destruct (decide (CANTBSEL = CANTBSEL)); [reflexivity | congruence]. }
  unfold CANsend.
  apply wp_bind. eapply wp_load; [exact Hflg|].
  rewrite (proj2 (Z.eqb_neq _ _) Htxe).
  apply wp_bind. eapply wp_load; [exact Hflg|].
  apply wp_bind. wp_store_step. rewrite Hsel.
  apply wp_bind. eapply wp_load.
  { world_simpl. apply list_lookup_insert_eq. addr. }
  fold d. apply wp_bind. unfold store_dword.
  apply wp_bind. wp_store_step. rewrite controller_store_plain by addr.
  apply wp_bind. wp_store_step. rewrite controller_store_plain by addr.
  apply wp_bind. wp_store_step. rewrite controller_store_plain by addr.
  wp_store_step. rewrite controller_store_plain by addr. fold r5.
  change (if 8 <? CANframe.length frame then CANframe.set_length 8 frame else frame)
    with (clamp_length frame).
  apply wp_bind. eapply wp_mono.
  { apply tx_copy_spec; [exact Hr5 | exact Hn | rewrite Hpl; exact Hpay]. }
  intros [] w6 (r & -> & Hlr & Hlo & Hout). world_simpl. cbn [regs] in Hout.
  apply wp_bind. wp_store_step. rewrite controller_store_plain by addr.
  apply wp_bind. wp_store_step. rewrite controller_store_plain by addr.
  apply wp_bind. wp_store_step.
  apply wp_bind. eapply wp_mono.
  { apply (wp_wait_until status fuel CANTFLG _ k); [reg_len | | exact Hfuel].
    world_simpl. apply Z.eqb_eq. exact Hdone. }
  intros [] w' (k' & Hk' & -> & _). apply wp_ret.
  world_simpl. rewrite Hpl, Hprio in *.
  set (n := Z.to_nat (CANframe.length (clamp_length frame))) in *.
  assert (Hfinal : forall a x, a <> CANTFLG -> a <> CANTXDLR -> a <> CANTXTBPR ->
            <[CANTFLG := x]>
              (controller_store CANTFLG (lowest_tx flg)
                 (<[CANTXTBPR := CANframe.priority frame]>
                    (<[CANTXDLR := CANframe.length (clamp_length frame)]> r))) !! a
            = r !! a).
  { intros a x H1 H2 H3.
    rewrite list_lookup_insert_ne; [|congruence].
    rewrite lookup_controller_store_ne by congruence.
    rewrite !list_lookup_insert_ne by congruence. reflexivity. }
  split; [reflexivity|]. split; [repeat split|]. split.
  { unfold send_events. fold d. fold n. rewrite Hprio. rewrite <- !app_assoc. reflexivity. }
  unfold loaded. fold d. fold n.
  split; [rewrite length_insert, length_controller_store, !length_insert; congruence|].
  split.
  { rewrite Hfinal by addr. rewrite Hout by addr. unfold r5.
    rewrite !list_lookup_insert_ne by addr. apply list_lookup_insert_eq. addr. }
  split.
  { rewrite Hfinal by addr. rewrite Hout by addr. unfold r5.
    rewrite !list_lookup_insert_ne by addr. apply list_lookup_insert_eq.
    rewrite length_insert. addr. }
  split.
  { rewrite Hfinal by addr. rewrite Hout by addr. unfold r5.
    rewrite !list_lookup_insert_ne by addr. apply list_lookup_insert_eq.
    rewrite !length_insert. addr. }
  split.
  { rewrite Hfinal by addr. rewrite Hout by addr. unfold r5.
    rewrite !list_lookup_insert_ne by addr. apply list_lookup_insert_eq.
    rewrite !length_insert. addr. }
  split.
  { rewrite Hfinal by addr. rewrite Hout by addr. unfold r5.
    apply list_lookup_insert_eq. rewrite !length_insert. addr. }
  split.
  { intros i Hi. rewrite Hfinal by addr. apply Hlo. exact Hi. }
  split.
  { rewrite list_lookup_insert_ne by addr. rewrite lookup_controller_store_ne by addr.
    rewrite list_lookup_insert_ne by addr. apply list_lookup_insert_eq. addr. }
  split.
  { rewrite list_lookup_insert_ne by addr. rewrite lookup_controller_store_ne by addr.
    apply list_lookup_insert_eq. rewrite length_insert. addr. }
  intros a H1 H2 H3 H4 H5.
  rewrite Hfinal by assumption. rewrite Hout by addr. unfold r5.
  rewrite !list_lookup_insert_ne by addr. reflexivity.
Qed.

(** The two ways [CANsend] can return: rejected at once with the state
    untouched, when the three empty flags read 0 together; or, when they do
    not, status 0 with the clamped frame. *)
Lemma CANsend_result (status : nat -> nat -> Z) (fuel : nat) (frame : CANframe.t)
    (w : world) :
  wlp (CANsend status fuel frame)
      (fun res w' =>
         exists flg, regs w !! CANTFLG = Some flg /\
           ((Z.land flg CANTFLG_TXE_MASK = 0 /\ res = (1, frame) /\ w' = w) \/
            (Z.land flg CANTFLG_TXE_MASK <> 0 /\ res = (0, clamp_length frame)))) w.
Proof.
  unfold CANsend. apply wlp_bind. unfold wlp at 1, load.
  destruct (regs w !! CANTFLG) as [flg|] eqn:Hflg; [|exact I].
  destruct (Z.land flg CANTFLG_TXE_MASK =? 0) eqn:Htxe.
  - apply Z.eqb_eq in Htxe. exists flg. split; [reflexivity|]. left. auto.
  - apply Z.eqb_neq in Htxe.
    repeat (apply wlp_bind; eapply wlp_mono; [apply wlp_true | intros ? ? _]).
    exists flg. split; [reflexivity|]. right. split; [exact Htxe | reflexivity].
Qed.

(** ** Rejection when every transmit buffer is busy (C2) *)

(** C2.  When the three transmit-buffer-empty flags of CANTFLG read 0
    together at the call, [CANsend] returns 1 without polling (whatever the
    fuel) and leaves the state it found: no register is stored to, the trace
    of stores gains nothing, the frame is as it was.  The test is on the
    three flags as one field: when the field is not 0, a call that returns
    returns 0, never 1. *)
Theorem CANsend_rejects_when_full (status : nat -> nat -> Z) (fuel : nat)
    (frame : CANframe.t) (w : world) (flg : Z) :
  regs w !! CANTFLG = Some flg ->
  (Z.land flg CANTFLG_TXE_MASK = 0 ->
     CANsend status fuel frame w = Ok (1, frame) w) /\
  (Z.land flg CANTFLG_TXE_MASK <> 0 ->
     forall st frame' w', CANsend status fuel frame w = Ok (st, frame') w' -> st = 0).
Proof.
  intros Hflg. split.
  - intros Htxe. unfold CANsend, mbind, M_bind, load. rewrite Hflg.
    rewrite (proj2 (Z.eqb_eq _ _) Htxe). reflexivity.
  - intros Htxe st frame' w' Hrun.
    destruct (wlp_elim _ _ _ _ _ (CANsend_result status fuel frame w) Hrun)
      as (flg' & Hflg' & [(Hz & _) | (_ & Hres)]).
    + congruence.
    + congruence.
Qed.

Lemma CANsend_rejects_when_full_witness :
  (Z.land 0 CANTFLG_TXE_MASK = 0 ->
     CANsend sim_status 0 sim_frame (set_regs (replicate MSCAN_SIZE 0) sim_world)
       = Ok (1, sim_frame) (set_regs (replicate MSCAN_SIZE 0) sim_world)) /\
  (Z.land 0 CANTFLG_TXE_MASK <> 0 ->
     forall st frame' w',
       CANsend sim_status 0 sim_frame (set_regs (replicate MSCAN_SIZE 0) sim_world)
         = Ok (st, frame') w' -> st = 0).
Proof.
  apply (CANsend_rejects_when_full sim_status 0 sim_frame
           (set_regs (replicate MSCAN_SIZE 0) sim_world) 0).
  reflexivity.
Defined.

(** ** The caller's frame (C7) *)

(** C7, as stated, fails: a frame handed over with length 12 comes back with
    length 8. *)
Lemma CANsend_overwrites_length :
  CANframe.length sim_long_frame = 12 /\
  returned (CANsend sim_status 5 sim_long_frame sim_world)
  = Some (0, CANframe.mk 0x123 9 8 [1; 2; 3; 4; 5; 6; 7; 8; 9; 10; 11; 12]).
Proof. split; reflexivity. Qed.

(** C7, amended.  [CANsend] leaves the identifier, the payload bytes and the
    priority of the caller's frame as they were; the length field is as it
    was when the call is rejected, and is the smaller of itself and 8 when
    the call returns 0.  That write apart, the call changes the controller's
    registers only: [rxbuffer], [data_available_flag] and the interrupt mask
    are as they were. *)
Theorem CANsend_frame_after (status : nat -> nat -> Z) (fuel : nat)
    (frame : CANframe.t) (w : world) (st : Z) (frame' : CANframe.t) (w' : world) :
  CANsend status fuel frame w = Ok (st, frame') w' ->
  CANframe.id frame' = CANframe.id frame /\
  CANframe.payload frame' = CANframe.payload frame /\
  CANframe.priority frame' = CANframe.priority frame /\
  CANframe.length frame' =
    (if st =? 0 then Z.min (CANframe.length frame) 8 else CANframe.length frame) /\
  same_statics w w'.
Proof.
  intros Hrun.
  pose proof (wlp_elim _ _ _ _ _ (keeps_CANsend status fuel frame w) Hrun) as Hstatics.
  cbv beta in Hstatics.
  destruct (wlp_elim _ _ _ _ _ (CANsend_result status fuel frame w) Hrun)
    as (flg & _ & [(_ & Hres & _) | (_ & Hres)]); inversion Hres; subst.
  - repeat (split; [reflexivity|]). exact Hstatics.
  - destruct (clamp_length_fields frame) as (Hid & Hprio & Hpl & Hlen).
    repeat (split; [assumption|]). exact Hstatics.
Qed.

Lemma CANsend_frame_after_witness :
  CANframe.id (CANframe.set_length 8 sim_long_frame) = CANframe.id sim_long_frame /\
  CANframe.payload (CANframe.set_length 8 sim_long_frame) = CANframe.payload sim_long_frame /\
  CANframe.priority (CANframe.set_length 8 sim_long_frame) = CANframe.priority sim_long_frame /\
  CANframe.length (CANframe.set_length 8 sim_long_frame) =
    (if 0 =? 0 then Z.min (CANframe.length sim_long_frame) 8
     else CANframe.length sim_long_frame) /\
  same_statics sim_world
    (match CANsend sim_status 5 sim_long_frame sim_world with
     | Ok _ w' => w'
     | Spin => sim_world
     | Fault => sim_world
     end).
Proof.
  apply (CANsend_frame_after sim_status 5 sim_long_frame sim_world 0
           (CANframe.set_length 8 sim_long_frame)
           (match CANsend sim_status 5 sim_long_frame sim_world with
            | Ok _ w' => w'
            | Spin => sim_world
            | Fault => sim_world
            end)).
  vm_compute. reflexivity.
Defined.

(** ** What a send puts on the register block (C3, C4) *)

Lemma payload_reads_tx_copy (payload : list Z) (n : nat) :
  payload_reads (tx_copy_events payload n) = seq 0 n.
Proof.
  induction n as [|n IH].
  - reflexivity.
  - rewrite tx_copy_events_S, seq_S. unfold payload_reads in *.
    rewrite omap_app, IH. reflexivity.
Qed.

Lemma data_stores_tx_copy (payload : list Z) (n : nat) :
  (n <= 8)%nat ->
  data_stores (tx_copy_events payload n) =
  map (fun i => ((CANTXDSR0 + i)%nat, payload !!! i)) (seq 0 n).
Proof.
  induction n as [|n IH]; intros Hn.
  - reflexivity.
  - rewrite tx_copy_events_S, seq_S, map_app. unfold data_stores in *.
    rewrite omap_app, IH by lia. cbn [omap list_omap map Nat.add].
    destruct (decide (CANTXDSR0 <= CANTXDSR0 + n < CANTXDLR)%nat) as [_|Hno];
      [reflexivity | exfalso; apply Hno; addr].
Qed.

(** The accesses of a send that found a buffer: the payload is loaded at
    indices 0 to [n-1] and nowhere else, and the data-segment registers get
    those [n] bytes, in that order, and nothing more ([n] the clamped
    length). *)
Lemma send_events_payload (flg : Z) (frame : CANframe.t) :
  let n := Z.to_nat (CANframe.length (clamp_length frame)) in
  payload_reads (send_events flg frame) = seq 0 n /\
  data_stores (send_events flg frame) =
    map (fun i => ((CANTXDSR0 + i)%nat, CANframe.payload frame !!! i)) (seq 0 n).
Proof.
  intros n.
  assert (Hn : (n <= 8)%nat).
  { unfold n. destruct (clamp_length_fields frame) as (_ & _ & _ & Hlen). lia. }
  unfold send_events. fold n. split.
  - unfold payload_reads. rewrite !omap_app.
    fold (payload_reads (tx_copy_events (CANframe.payload frame) n)).
    rewrite payload_reads_tx_copy. cbn [omap list_omap app]. apply app_nil_r.
  - unfold data_stores. rewrite !omap_app.
    fold (data_stores (tx_copy_events (CANframe.payload frame) n)).
    rewrite data_stores_tx_copy by exact Hn.
    cbn [omap list_omap].
    repeat (destruct (decide _) as [Hin|_]; [exfalso; revert Hin; addr|]).
    cbn [app]. apply app_nil_r.
Qed.

(** The four identifier bytes of a standard identifier: the upper word is
    the identifier shifted left by 5, the lower word is 0. *)
Lemma idr_bytes (id : Z) :
  0 <= id < 2 ^ 11 ->
  let d := Z.shiftl id (5 + 16) mod 2 ^ 32 in
  (Z.shiftr d 24 mod 256) * 256 + Z.shiftr d 16 mod 256 = Z.shiftl id 5 /\
  (Z.shiftr d 8 mod 256) * 256 + d mod 256 = 0.
Proof.
  intros Hid d. unfold d.
  rewrite !Z.shiftr_div_pow2, !Z.shiftl_mul_pow2 by lia.
  change (2 ^ (5 + 16)) with 2097152. change (2 ^ 32) with 4294967296.
  change (2 ^ 24) with 16777216. change (2 ^ 16) with 65536.
  change (2 ^ 8) with 256. change (2 ^ 5) with 32. change (2 ^ 11) with 2048 in Hid.
  Z.div_mod_to_equations. lia.
Qed.

(** C3.  For a frame whose length field exceeds 8 and a free transmit
    buffer, [CANsend] returns 0 (once the controller shows the buffer empty
    again): it loads the payload at indices 0 to 7 and at no other index,
    stores exactly those eight bytes, in order, to the eight data-segment
    registers, and sets the length register to 8.  Nothing reports the
    truncation. *)
Theorem CANsend_truncates (status : nat -> nat -> Z) (fuel : nat) (frame : CANframe.t)
    (w : world) (flg : Z) (k : nat) :
  length (regs w) = MSCAN_SIZE ->
  regs w !! CANTFLG = Some flg ->
  Z.land flg CANTFLG_TXE_MASK <> 0 ->
  8 < CANframe.length frame ->
  (8 <= length (CANframe.payload frame))%nat ->
  Z.land (status (polls w + k)%nat CANTFLG) (lowest_tx flg) = lowest_tx flg ->
  (k < fuel)%nat ->
  exists w' evs,
    CANsend status fuel frame w = Ok (0, CANframe.set_length 8 frame) w' /\
    trace w' = trace w ++ evs /\
    payload_reads evs = seq 0 8 /\
    data_stores evs =
      map (fun i => ((CANTXDSR0 + i)%nat, CANframe.payload frame !!! i)) (seq 0 8) /\
    (forall i, (i < 8)%nat ->
       regs w' !! (CANTXDSR0 + i)%nat = CANframe.payload frame !! i) /\
    regs w' !! CANTXDLR = Some 8.
Proof.
  intros Hregs Hflg Htxe Hlong Hpay Hdone Hfuel.
  assert (Hclamp : clamp_length frame = CANframe.set_length 8 frame).
  { unfold clamp_length. rewrite (proj2 (Z.ltb_lt _ _) Hlong). reflexivity. }
  assert (Hn : Z.to_nat (CANframe.length (clamp_length frame)) = 8%nat).
  { rewrite Hclamp. reflexivity. }
  pose proof (CANsend_accepted status fuel frame w flg k Hregs Hflg Htxe) as Hwp.
  rewrite Hn in Hwp. specialize (Hwp Hpay Hdone Hfuel).
  apply wp_ok in Hwp. destruct Hwp as (res & w' & Hrun & -> & _ & Htrace & Hloaded).
  destruct (send_events_payload flg frame) as (Hreads & Hstores).
  rewrite Hn in Hreads, Hstores.
  unfold loaded in Hloaded. rewrite Hn in Hloaded.
  destruct Hloaded as (_ & _ & _ & _ & _ & _ & Hdata & Hdlr & _).
  exists w', (send_events flg frame).
  rewrite <- Hclamp.
  split; [exact Hrun|]. split; [exact Htrace|]. split; [exact Hreads|].
  split; [exact Hstores|]. split; [exact Hdata|].
  rewrite Hdlr, Hclamp. reflexivity.
Qed.

Lemma CANsend_truncates_witness :
  exists w' evs,
    CANsend sim_status 5 sim_long_frame sim_world
      = Ok (0, CANframe.set_length 8 sim_long_frame) w' /\
    trace w' = trace sim_world ++ evs /\
    payload_reads evs = seq 0 8 /\
    data_stores evs =
      map (fun i => ((CANTXDSR0 + i)%nat, CANframe.payload sim_long_frame !!! i))
          (seq 0 8) /\
    (forall i, (i < 8)%nat ->
       regs w' !! (CANTXDSR0 + i)%nat = CANframe.payload sim_long_frame !! i) /\
    regs w' !! CANTXDLR = Some 8.
Proof.
  apply (CANsend_truncates sim_status 5 sim_long_frame sim_world 7 0);
    [reflexivity | reflexivity | vm_compute; discriminate | vm_compute; reflexivity
    | vm_compute; lia | reflexivity | lia].
Defined.

(** C4.  For a frame with a standard (11-bit) identifier and a free transmit
    buffer, [CANsend] returns 0 (once the controller shows the buffer empty
    again) with the transmit window loaded: the identifier registers hold the
    identifier shifted left by 5 in their upper word (0x123 << 5 for 0x123)
    and 0 in the lower; payload bytes 0 to min(length, 8) - 1 are in the
    data-segment registers of the same index, stored in that order; the
    length register holds the clamped length and the priority register the
    frame's priority. *)
Theorem CANsend_loads_buffer (status : nat -> nat -> Z) (fuel : nat) (frame : CANframe.t)
    (w : world) (flg : Z) (k : nat) :
  length (regs w) = MSCAN_SIZE ->
  regs w !! CANTFLG = Some flg ->
  Z.land flg CANTFLG_TXE_MASK <> 0 ->
  0 <= CANframe.id frame < 2 ^ 11 ->
  (Z.to_nat (Z.min (CANframe.length frame) 8) <= length (CANframe.payload frame))%nat ->
  Z.land (status (polls w + k)%nat CANTFLG) (lowest_tx flg) = lowest_tx flg ->
  (k < fuel)%nat ->
  exists w' evs,
    CANsend status fuel frame w = Ok (0, clamp_length frame) w' /\
    word_at (regs w') CANTXIDR0 = Z.shiftl (CANframe.id frame) 5 /\
    word_at (regs w') (CANTXIDR0 + 2) = 0 /\
    (forall i, (i < Z.to_nat (Z.min (CANframe.length frame) 8))%nat ->
       regs w' !! (CANTXDSR0 + i)%nat = CANframe.payload frame !! i) /\
    trace w' = trace w ++ evs /\
    data_stores evs =
      map (fun i => ((CANTXDSR0 + i)%nat, CANframe.payload frame !!! i))
          (seq 0 (Z.to_nat (Z.min (CANframe.length frame) 8))) /\
    regs w' !! CANTXDLR = Some (Z.min (CANframe.length frame) 8) /\
    regs w' !! CANTXTBPR = Some (CANframe.priority frame).
Proof.
  intros Hregs Hflg Htxe Hid Hpay Hdone Hfuel.
  destruct (clamp_length_fields frame) as (_ & _ & _ & Hlen).
  pose proof (CANsend_accepted status fuel frame w flg k Hregs Hflg Htxe) as Hwp.
  rewrite Hlen in Hwp. specialize (Hwp Hpay Hdone Hfuel).
  apply wp_ok in Hwp. destruct Hwp as (res & w' & Hrun & -> & _ & Htrace & Hloaded).
  destruct (send_events_payload flg frame) as (_ & Hstores). rewrite Hlen in Hstores.
  unfold loaded in Hloaded. rewrite Hlen in Hloaded.
  destruct Hloaded as (_ & _ & H0 & H1 & H2 & H3 & Hdata & Hdlr & Hprio & _).
  destruct (idr_bytes (CANframe.id frame) Hid) as (Hhi & Hlo).
  exists w', (send_events flg frame).
  split; [exact Hrun|]. split; [|split].
  - unfold word_at.
    rewrite (list_lookup_total_correct _ _ _ H0), (list_lookup_total_correct _ _ _ H1).
    exact Hhi.
  - unfold word_at. replace (CANTXIDR0 + 2 + 1)%nat with (CANTXIDR0 + 3)%nat by lia.
    rewrite (list_lookup_total_correct _ _ _ H2), (list_lookup_total_correct _ _ _ H3).
    exact Hlo.
  - split; [exact Hdata|]. split; [exact Htrace|]. split; [exact Hstores|].
    split; [exact Hdlr | exact Hprio].
Qed.

Lemma CANsend_loads_buffer_witness :
  exists w' evs,
    CANsend sim_status 5 sim_frame sim_world = Ok (0, clamp_length sim_frame) w' /\
    word_at (regs w') CANTXIDR0 = Z.shiftl (CANframe.id sim_frame) 5 /\
    word_at (regs w') (CANTXIDR0 + 2) = 0 /\
    (forall i, (i < Z.to_nat (Z.min (CANframe.length sim_frame) 8))%nat ->
       regs w' !! (CANTXDSR0 + i)%nat = CANframe.payload sim_frame !! i) /\
    trace w' = trace sim_world ++ evs /\
    data_stores evs =
      map (fun i => ((CANTXDSR0 + i)%nat, CANframe.payload sim_frame !!! i))
          (seq 0 (Z.to_nat (Z.min (CANframe.length sim_frame) 8))) /\
    regs w' !! CANTXDLR = Some (Z.min (CANframe.length sim_frame) 8) /\
    regs w' !! CANTXTBPR = Some (CANframe.priority sim_frame).
Proof.
  apply (CANsend_loads_buffer sim_status 5 sim_frame sim_world 7 0);
    [reflexivity | reflexivity | vm_compute; discriminate | vm_compute; split; [discriminate | reflexivity]
    | vm_compute; lia | reflexivity | lia].
Defined.

(** The spec's scenario: after [CANinit 0x123], sending id 0x123, payload
    1, 2, 3, length 3, priority 0 through an always-free buffer leaves
    0x123 << 5 in the identifier registers, 3 in the length register and
    1, 2, 3 in the first three data-segment registers. *)
Example CANinit_then_CANsend :
  exists w',
    (CANinit sim_status false 5 0x123 ;; CANsend sim_status 5 sim_frame) sim_world
      = Ok (0, sim_frame) w' /\
    word_at (regs w') CANTXIDR0 = Z.shiftl 0x123 5 /\
    regs w' !! CANTXDLR = Some 3 /\
    take 3 (drop CANTXDSR0 (regs w')) = [1; 2; 3].
Proof. eexists. vm_compute. repeat split. Qed.

(** ** Initialisation *)

Ltac world_simpl_in H :=
  unfold emit, set_regs, set_flag, set_imask, set_rxbuffer, tick in H;
  cbn [regs rxbuffer data_available_flag imask polls trace] in H.

Ltac reg_lookup :=
  repeat (rewrite list_lookup_insert_ne by addr);
  first [ apply list_lookup_insert_eq; rewrite ?length_insert; addr | eassumption ].

Ltac wp_load_step := eapply wp_load; [world_simpl; reg_lookup | ].

Ltac wp_field_step :=
  unfold field_store at 1; apply wp_bind; wp_load_step;
  wp_store_step; rewrite controller_store_plain by addr.

Lemma CANinit_spec (status : nat -> nat -> Z) (lb : bool) (fuel : nat) (id : Z)
    (w : world) (k1 k2 : nat) :
  length (regs w) = MSCAN_SIZE ->
  (forall j, (j < k1)%nat ->
     Z.land (status (polls w + j)%nat CANCTL1) CANCTL1_INITAK = 0) ->
  Z.land (status (polls w + k1)%nat CANCTL1) CANCTL1_INITAK <> 0 ->
  Z.land (status (polls w + k1 + 1 + k2)%nat CANCTL1) CANCTL1_INITAK = 0 ->
  (k1 < fuel)%nat ->
  (k2 < fuel)%nat ->
  let c := Z.shiftl id 5 mod 2 ^ 16 in
  let m := Z.lor 0x0007 (Z.lxor c 0xFFFF) in
  wp (CANinit status lb fuel id)
     (fun _ w' =>
        same_statics w w' /\
        exists b0 b1,
          regs w !! CANBTR0 = Some b0 /\
          regs w !! CANBTR1 = Some b1 /\
          regs w' !! CANBTR0 =
            Some (field_set (field_set b0 CANBTR0_BRP (MSCAN_PRESCALE_1 - 1))
                            CANBTR0_SJW (Z.shiftl (MSCAN_SJW_4TQ - 1) 6)) /\
          regs w' !! CANBTR1 =
            Some (field_set
                    (field_set (field_set b1 CANBTR1_TSEG1 (MSCAN_TIME_SEG1_4 - 1))
                               CANBTR1_TSEG2 (Z.shiftl (MSCAN_TIME_SEG2_3 - 1) 4))
                    CANBTR1_SAMP (Z.shiftl 0 7)) /\
          regs w' !! CANIDMR0 = Some (Z.shiftr m 8 mod 256) /\
          regs w' !! (CANIDMR0 + 1)%nat = Some (m mod 256) /\
          regs w' !! CANIDAR0 = Some (Z.shiftr c 8 mod 256) /\
          regs w' !! (CANIDAR0 + 1)%nat = Some (c mod 256)) w.
Proof.
  intros Hregs Hfirst Hack Hleave Hk1 Hk2 c m.
  destruct (lookup_lt_is_Some_2 (regs w) CANCTL0) as [c0 Hc0]; [addr|].
  destruct (lookup_lt_is_Some_2 (regs w) CANCTL1) as [c1 Hc1]; [addr|].
  destruct (lookup_lt_is_Some_2 (regs w) CANBTR0) as [b0 Hb0]; [addr|].
  destruct (lookup_lt_is_Some_2 (regs w) CANBTR1) as [b1 Hb1]; [addr|].
  destruct (lookup_lt_is_Some_2 (regs w) CANIDAC) as [ac Hac]; [addr|].
  destruct (lookup_lt_is_Some_2 (regs w) CANRIER) as [ie Hie]; [addr|].
  unfold CANinit, SET_MSCAN_CLK_SRC, SET_MSCAN_PRESCALE, SET_MSCAN_TIME_SEG1,
    SET_MSCAN_TIME_SEG2, SET_MSCAN_JUMP_WIDTH, SET_MSCAN_SAMPLE_BITS, MSCAN_ACC_MODE.
  fold c. fold m.
  apply wp_bind. wp_field_step.
  apply wp_bind. wp_field_step.
  apply wp_bind. eapply wp_mono.
  { apply (wp_wait_until status fuel CANCTL1 _ k1); [reg_len | | exact Hk1].
    world_simpl. apply negb_true_iff. apply Z.eqb_neq. exact Hack. }
  intros [] w1 (k1' & Hk1' & -> & Hdone1). world_simpl.
  world_simpl_in Hdone1.
  assert (k1' = k1) as ->.
  { destruct (decide (k1' < k1)%nat) as [Hlt|Hge]; [|lia].
    apply negb_true_iff, Z.eqb_neq in Hdone1. destruct Hdone1. apply Hfirst. exact Hlt. }
  clear Hdone1 Hk1'.
  apply wp_bind. wp_field_step.
  apply wp_bind. wp_field_step.
  apply wp_bind. wp_field_step.
  apply wp_bind. wp_field_step.
  apply wp_bind. wp_field_step.
  apply wp_bind. wp_field_step.
  apply wp_bind. wp_field_step.
  apply wp_bind. wp_field_step.
  apply wp_bind. wp_field_step.
  apply wp_bind. wp_field_step.
  apply wp_bind. unfold store_word at 1.
  apply wp_bind. wp_store_step. rewrite controller_store_plain by addr.
  wp_store_step. rewrite controller_store_plain by addr.
  apply wp_bind. unfold store_word at 1.
  apply wp_bind. wp_store_step. rewrite controller_store_plain by addr.
  wp_store_step. rewrite controller_store_plain by addr.
  apply wp_bind. wp_field_step.
  apply wp_bind. eapply wp_mono.
  { apply (wp_wait_until status fuel CANCTL1 _ k2); [reg_len | | exact Hk2].
    world_simpl. apply Z.eqb_eq.
    replace (S (polls w + k1) + k2)%nat with (polls w + k1 + 1 + k2)%nat by lia.
    exact Hleave. }
  intros [] w2 (k2' & _ & -> & _). world_simpl.
  unfold field_store. apply wp_bind. wp_load_step.
  apply wp_store; [reg_len|]. world_simpl. rewrite controller_store_plain by addr.
  split; [repeat split|].
  exists b0, b1. split; [exact Hb0|]. split; [exact Hb1|].
  repeat split; reg_lookup.
Qed.

(** ** Bus timing (C8) *)

Lemma field_set_same (v mask x : Z) :
  Z.land (field_set v mask x) mask = Z.land x mask.
Proof.
  unfold field_set. apply Z.bits_inj'. intros i Hi.
  rewrite !Z.land_spec, Z.lor_spec, Z.ldiff_spec, Z.land_spec.
  destruct (Z.testbit v i), (Z.testbit mask i), (Z.testbit x i); reflexivity.
Qed.

Lemma field_set_other (v mask mask' x : Z) :
  Z.land mask mask' = 0 ->
  Z.land (field_set v mask x) mask' = Z.land v mask'.
Proof.
  intros Hdisjoint. unfold field_set. apply Z.bits_inj'. intros i Hi.
  apply (f_equal (fun z => Z.testbit z i)) in Hdisjoint.
  rewrite Z.land_spec, Z.bits_0 in Hdisjoint.
  rewrite !Z.land_spec, Z.lor_spec, Z.ldiff_spec, Z.land_spec.
  destruct (Z.testbit v i), (Z.testbit mask i), (Z.testbit mask' i), (Z.testbit x i);
    simpl in *; congruence.
Qed.

(** C8.  Once [CANinit] has run (the controller acknowledging the request
    to enter and to leave initialisation mode), the timing registers hold
    prescaler 1, time segment 1 of 4 quanta and time segment 2 of 3 quanta:
    a bit time of 1 + 4 + 3 = 8 quanta, within the controller's 8 to 25, with
    segment 1 within 4 to 16 and segment 2 within 2 to 8, and by
    [bit_rate = clock / (prescaler * quanta)] with the 8 MHz bus clock a bit
    rate of 1 Mbit/s. *)
Theorem CANinit_bus_timing (status : nat -> nat -> Z) (lb : bool) (fuel : nat) (id : Z)
    (w : world) (k1 k2 : nat) :
  length (regs w) = MSCAN_SIZE ->
  (forall j, (j < k1)%nat ->
     Z.land (status (polls w + j)%nat CANCTL1) CANCTL1_INITAK = 0) ->
  Z.land (status (polls w + k1)%nat CANCTL1) CANCTL1_INITAK <> 0 ->
  Z.land (status (polls w + k1 + 1 + k2)%nat CANCTL1) CANCTL1_INITAK = 0 ->
  (k1 < fuel)%nat ->
  (k2 < fuel)%nat ->
  exists w',
    CANinit status lb fuel id w = Ok tt w' /\
    prescaler (regs w') = 1 /\
    time_seg1 (regs w') = 4 /\
    time_seg2 (regs w') = 3 /\
    8 <= quanta_per_bit (regs w') <= 25 /\
    4 <= time_seg1 (regs w') <= 16 /\
    2 <= time_seg2 (regs w') <= 8 /\
    quanta_per_bit (regs w') = 8 /\
    bit_rate BUS_CLOCK (regs w') = 1000000.
Proof.
  intros Hregs Hfirst Hack Hleave Hk1 Hk2.
  pose proof (CANinit_spec status lb fuel id w k1 k2 Hregs Hfirst Hack Hleave Hk1 Hk2) as Hwp.
  apply wp_ok in Hwp.
  destruct Hwp as ([] & w' & Hrun & _ & b0 & b1 & _ & _ & Hbtr0 & Hbtr1 & _).
  assert (Hp : prescaler (regs w') = 1).
  { unfold prescaler. rewrite (list_lookup_total_correct _ _ _ Hbtr0).
    rewrite field_set_other by reflexivity. rewrite field_set_same. reflexivity. }
  assert (H1 : time_seg1 (regs w') = 4).
  { unfold time_seg1. rewrite (list_lookup_total_correct _ _ _ Hbtr1).
    rewrite !field_set_other by reflexivity. rewrite field_set_same. reflexivity. }
  assert (H2 : time_seg2 (regs w') = 3).
  { unfold time_seg2. rewrite (list_lookup_total_correct _ _ _ Hbtr1).
    rewrite field_set_other by reflexivity. rewrite field_set_same. reflexivity. }
  exists w'. split; [exact Hrun|].
  unfold bit_rate, quanta_per_bit. rewrite Hp, H1, H2.
  repeat split; try reflexivity; lia.
Qed.

Lemma CANinit_bus_timing_witness :
  exists w',
    CANinit sim_status false 5 0x123 sim_world = Ok tt w' /\
    prescaler (regs w') = 1 /\
    time_seg1 (regs w') = 4 /\
    time_seg2 (regs w') = 3 /\
    8 <= quanta_per_bit (regs w') <= 25 /\
    4 <= time_seg1 (regs w') <= 16 /\
    2 <= time_seg2 (regs w') <= 8 /\
    quanta_per_bit (regs w') = 8 /\
    bit_rate BUS_CLOCK (regs w') = 1000000.
Proof.
  apply (CANinit_bus_timing sim_status false 5 0x123 sim_world 0 0);
    [reflexivity | intros j Hj; lia | vm_compute; discriminate | reflexivity | lia | lia].
Defined.

(** ** The acceptance filter (C6) *)

(** A check that holds of every number below [n], run on each of them. *)
Lemma forall_below (P : Z -> bool) (n : nat) :
  forallb P (map Z.of_nat (seq 0 n)) = true ->
  forall z, 0 <= z < Z.of_nat n -> P z = true.
Proof.
  intros Hall z Hz. rewrite forallb_forall in Hall. apply Hall.
  apply in_map_iff. exists (Z.to_nat z). split; [lia|]. apply in_seq. lia.
Qed.

(** For an 11-bit identifier the mask word is a 16-bit word and its clear
    bits are exactly the set bits of the identifier word. *)
Lemma filter_mask_care_bits (id : Z) :
  0 <= id < 2 ^ 11 ->
  0 <= filter_mask id < 2 ^ 16 /\
  Z.lxor (filter_mask id) 0xFFFF = Z.shiftl id 5 /\
  filter_code id = Z.shiftl id 5.
Proof.
  intros Hid.
  pose proof (forall_below
    (fun id => (0 <=? filter_mask id) && (filter_mask id <? 2 ^ 16)
               && (Z.lxor (filter_mask id) 0xFFFF =? Z.shiftl id 5)
               && (filter_code id =? Z.shiftl id 5))
    2048 ltac:(vm_compute; reflexivity) id Hid) as Hcheck.
  cbv beta in Hcheck.
  apply andb_true_iff in Hcheck. destruct Hcheck as [Hcheck Hcode].
  apply andb_true_iff in Hcheck. destruct Hcheck as [Hcheck Hxor].
  apply andb_true_iff in Hcheck. destruct Hcheck as [Hlo Hhi].
  apply Z.leb_le in Hlo. apply Z.ltb_lt in Hhi.
  apply Z.eqb_eq in Hxor. apply Z.eqb_eq in Hcode.
  repeat split; assumption.
Qed.

(** A word agrees with [c] on the set bits of [c] exactly when it has all
    of them set. *)
Lemma land_lxor_care (rx c : Z) :
  Z.land (Z.lxor rx c) c = 0 <-> Z.land rx c = c.
Proof.
  split; intros H; apply Z.bits_inj'; intros i Hi;
    apply (f_equal (fun z => Z.testbit z i)) in H;
    rewrite ?Z.land_spec, ?Z.lxor_spec, ?Z.bits_0 in *;
    destruct (Z.testbit rx i), (Z.testbit c i); simpl in *; congruence.
Qed.

(** The five low bits of a received identifier word meet no bit of a shifted
    identifier. *)
Lemma rx_idword_land (ident low id : Z) :
  0 <= low < 2 ^ 5 ->
  Z.land (rx_idword ident low) (Z.shiftl id 5) = Z.shiftl (Z.land ident id) 5.
Proof.
  intros Hlow. unfold rx_idword. apply Z.bits_inj'. intros i Hi.
  rewrite Z.land_spec, Z.lor_spec.
  destruct (Z.lt_ge_cases i 5) as [Hi5|Hi5].
  - rewrite !Z.shiftl_spec_low by lia. rewrite orb_false_l, andb_false_r. reflexivity.
  - rewrite !Z.shiftl_spec by lia. rewrite Z.land_spec.
    assert (Hbit : Z.testbit low i = false).
    { rewrite <- (Z.mod_small low (2 ^ 5)) by lia. apply Z.mod_pow2_bits_high. lia. }
    rewrite Hbit, orb_false_r. reflexivity.
Qed.

(** The 16-bit word of two bytes stored high byte first. *)
Lemma word_of_bytes (v : Z) :
  0 <= v < 2 ^ 16 -> (Z.shiftr v 8 mod 256) * 256 + v mod 256 = v.
Proof.
  intros Hv. rewrite Z.shiftr_div_pow2 by lia.
  change (2 ^ 8) with 256. change (2 ^ 16) with 65536 in Hv.
  Z.div_mod_to_equations. lia.
Qed.

(** C6, as stated, fails: after [CANinit 0x123] the mask word is 0xDB9F, with
    don't-care bits in seven identifier positions, and the filter accepts
    identifier 0x7FF. *)
Lemma CANinit_filter_accepts_other_identifier :
  exists w',
    CANinit sim_status false 5 0x123 sim_world = Ok tt w' /\
    word_at (regs w') CANIDMR0 = 0xDB9F /\
    word_at (regs w') CANIDAR0 = Z.shiftl 0x123 5 /\
    Z.land (word_at (regs w') CANIDMR0) (Z.shiftl (2 ^ 11 - 1) 5) = 0xDB80 /\
    accepts (word_at (regs w') CANIDMR0) (word_at (regs w') CANIDAR0)
            (rx_idword 0x7FF 0) = true /\
    0x7FF <> 0x123.
Proof.
  eexists. split; [vm_compute; reflexivity|].
  repeat split. discriminate.
Qed.

(** C6, amended.  For an 11-bit [id], [CANinit] leaves [id << 5] in the
    identifier register pair and [0x0007 | ~(id << 5)] in the mask pair; the
    filter then accepts exactly the frames whose identifier has a 1 wherever
    [id] has one, whatever their five low bits (RTR, IDE and the three unused
    bits).  The don't-care bits are those five and every identifier position
    where [id] has a 0. *)
Theorem CANinit_filter (status : nat -> nat -> Z) (lb : bool) (fuel : nat) (id : Z)
    (w : world) (k1 k2 : nat) :
  length (regs w) = MSCAN_SIZE ->
  (forall j, (j < k1)%nat ->
     Z.land (status (polls w + j)%nat CANCTL1) CANCTL1_INITAK = 0) ->
  Z.land (status (polls w + k1)%nat CANCTL1) CANCTL1_INITAK <> 0 ->
  Z.land (status (polls w + k1 + 1 + k2)%nat CANCTL1) CANCTL1_INITAK = 0 ->
  (k1 < fuel)%nat ->
  (k2 < fuel)%nat ->
  0 <= id < 2 ^ 11 ->
  exists w',
    CANinit status lb fuel id w = Ok tt w' /\
    word_at (regs w') CANIDAR0 = Z.shiftl id 5 /\
    word_at (regs w') CANIDMR0 = Z.lor 0x0007 (Z.lxor (Z.shiftl id 5) 0xFFFF) /\
    (forall ident low, 0 <= ident < 2 ^ 11 -> 0 <= low < 2 ^ 5 ->
       accepts (word_at (regs w') CANIDMR0) (word_at (regs w') CANIDAR0)
               (rx_idword ident low) = true
       <-> Z.land ident id = id) /\
    (forall low, 0 <= low < 2 ^ 5 ->
       accepts (word_at (regs w') CANIDMR0) (word_at (regs w') CANIDAR0)
               (rx_idword id low) = true).
Proof.
  intros Hregs Hfirst Hack Hleave Hk1 Hk2 Hid.
  pose proof (CANinit_spec status lb fuel id w k1 k2 Hregs Hfirst Hack Hleave Hk1 Hk2) as Hwp.
  apply wp_ok in Hwp.
  destruct Hwp as ([] & w' & Hrun & _ & b0 & b1 & _ & _ & _ & _ & Hm0 & Hm1 & Hc0 & Hc1).
  fold (filter_code id) in Hm0, Hm1, Hc0, Hc1. fold (filter_mask id) in Hm0, Hm1.
  destruct (filter_mask_care_bits id Hid) as (Hmrange & Hcare & Hcode).
  assert (Hcrange : 0 <= filter_code id < 2 ^ 16).
  { unfold filter_code. apply Z.mod_pos_bound. lia. }
  assert (Hcodew : word_at (regs w') CANIDAR0 = Z.shiftl id 5).
  { unfold word_at.
    rewrite (list_lookup_total_correct _ _ _ Hc0), (list_lookup_total_correct _ _ _ Hc1).
    rewrite word_of_bytes by exact Hcrange. exact Hcode. }
  assert (Hmaskw : word_at (regs w') CANIDMR0 = filter_mask id).
  { unfold word_at.
    rewrite (list_lookup_total_correct _ _ _ Hm0), (list_lookup_total_correct _ _ _ Hm1).
    apply word_of_bytes. exact Hmrange. }
  assert (Hacc : forall ident low, 0 <= low < 2 ^ 5 ->
            accepts (word_at (regs w') CANIDMR0) (word_at (regs w') CANIDAR0)
                    (rx_idword ident low) = true
            <-> Z.land ident id = id).
  { intros ident low Hlow. unfold accepts. rewrite Hmaskw, Hcodew, Hcare.
    rewrite Z.eqb_eq, land_lxor_care, rx_idword_land by exact Hlow.
    rewrite !Z.shiftl_mul_pow2 by lia. lia. }
  exists w'. split; [exact Hrun|]. split; [exact Hcodew|]. split; [|split].
  - rewrite Hmaskw. unfold filter_mask. rewrite Hcode. reflexivity.
  - intros ident low _ Hlow. apply Hacc. exact Hlow.
  - intros low Hlow. apply Hacc; [exact Hlow|]. apply Z.land_diag.
Qed.

Lemma CANinit_filter_witness :
  exists w',
    CANinit sim_status false 5 0x123 sim_world = Ok tt w' /\
    word_at (regs w') CANIDAR0 = Z.shiftl 0x123 5 /\
    word_at (regs w') CANIDMR0 = Z.lor 0x0007 (Z.lxor (Z.shiftl 0x123 5) 0xFFFF) /\
    (forall ident low, 0 <= ident < 2 ^ 11 -> 0 <= low < 2 ^ 5 ->
       accepts (word_at (regs w') CANIDMR0) (word_at (regs w') CANIDAR0)
               (rx_idword ident low) = true
       <-> Z.land ident 0x123 = 0x123) /\
    (forall low, 0 <= low < 2 ^ 5 ->
       accepts (word_at (regs w') CANIDMR0) (word_at (regs w') CANIDAR0)
               (rx_idword 0x123 low) = true).
Proof.
  apply (CANinit_filter sim_status false 5 0x123 sim_world 0 0);
    [reflexivity | intros j Hj; lia | vm_compute; discriminate | reflexivity | lia | lia
    | vm_compute; split; [discriminate | reflexivity]].
Defined.

(** ** A read racing with the handler (C9) *)

Lemma bind_assoc {A B C : Type} (m : M A) (f : A -> M B) (g : B -> M C) (w : world) :
  ((m ≫= f) ≫= g) w = (m ≫= (fun a => f a ≫= g)) w.
Proof. unfold mbind, M_bind. destruct (m w); reflexivity. Qed.

Lemma bind_ext {A B : Type} (m : M A) (f g : A -> M B) (w : world) :
  (forall a w', f a w' = g a w') -> (m ≫= f) w = (m ≫= g) w.
Proof. intros Hfg. unfold mbind, M_bind. destruct (m w); auto. Qed.

Lemma CANget_copy_snoc (n i : nat) (message : list Z) (w : world) :
  CANget_copy (n + 1) i message w =
  (message' ← CANget_copy n i message; CANget_copy 1 (i + n) message') w.
Proof.
  revert i message w. induction n as [|n IH]; intros i message w.
  - cbn [Nat.add]. rewrite Nat.add_0_r. reflexivity.
  - cbn [Nat.add]. cbn [CANget_copy]. rewrite bind_assoc. apply bind_ext.
    intros b w'. destruct (decide (i < length message)%nat); [|reflexivity].
    rewrite IH. replace (S i + n)%nat with (i + S n)%nat by lia. reflexivity.
Qed.

(** A copy loop that ran to its end left the state alone and copied
    [rxbuffer] from [i] to [i + n - 1]. *)
Lemma CANget_copy_inv (n i : nat) (message message' : list Z) (w w' : world) :
  CANget_copy n i message w = Ok message' w' ->
  w' = w /\
  (forall k, (i <= k < i + n)%nat -> message' !! k = rxbuffer w !! k).
Proof.
  revert i message message' w'. induction n as [|n IH]; intros i message message' w' Hrun.
  - inversion Hrun; subst. split; [reflexivity|]. intros k Hk. lia.
  - replace (S n) with (n + 1)%nat in Hrun by lia.
    rewrite CANget_copy_snoc in Hrun. unfold mbind, M_bind in Hrun.
    destruct (CANget_copy n i message w) as [m1 w1| |] eqn:Hfirst; try discriminate.
    apply IH in Hfirst. destruct Hfirst as [-> Hfirst].
    cbn [CANget_copy] in Hrun. unfold mbind, M_bind, rxbuffer_load in Hrun.
    destruct (rxbuffer w !! (i + n)%nat) as [b|] eqn:Hb; [|discriminate].
    destruct (decide (i + n < length m1)%nat) as [Hi|]; [|discriminate].
    inversion Hrun; subst. split; [reflexivity|]. intros k Hk.
    destruct (decide (k = i + n)%nat) as [->|Hne].
    + rewrite list_lookup_insert_eq by exact Hi. symmetry. exact Hb.
    + rewrite list_lookup_insert_ne by lia. apply Hfirst. lia.
Qed.

(** Every step of the system keeps [race_inv]: the reader's statements move
    it along, and the handler can only run while the reader is outside its
    critical section. *)
Lemma race_inv_step (message : list Z) (w0 : world) (s s' : reader * world) :
  race_step s s' -> race_inv message w0 s -> race_inv message w0 s'.
Proof.
  intros Hstep. destruct Hstep as [f w f' w' Hpc Hrun | f w dlc data w' Hmask Hrun].
  - unfold race_inv, CANget_step in *. destruct f as [p m]. cbn [reader_pc reader_message] in *.
    destruct p as [|i| |].
    + intros [-> Hpre]. inversion Hrun; subst. cbn [reader_pc reader_message].
      destruct (decide (0 < PAYLOAD_SIZE)%nat) as [Hpos|Hpos]; [|unfold PAYLOAD_SIZE in Hpos; lia].
      exists w. split; [exact Hpre|]. split; [exact Hpos|]. reflexivity.
    + intros (w1 & Hpre & Hi & Hcopy).
      unfold mbind at 1, M_bind at 1 in Hrun.
      destruct (CANget_copy 1 i m w) as [m' w''| |] eqn:Hone; try discriminate.
      inversion Hrun; subst. cbn [reader_pc reader_message].
      assert (Hnext : (DisableInterrupts ;; CANget_copy (i + 1) 0 message) w1 = Ok m' w').
      { unfold mbind, M_bind, DisableInterrupts in *. rewrite CANget_copy_snoc.
        unfold mbind, M_bind. rewrite Hcopy. exact Hone. }
      destruct (decide (S i < PAYLOAD_SIZE)%nat) as [Hlt|Hge].
      * exists w1. split; [exact Hpre|]. split; [exact Hlt|].
        replace (S i) with (i + 1)%nat by lia. exact Hnext.
      * exists w1. split; [exact Hpre|].
        replace PAYLOAD_SIZE with (i + 1)%nat by lia. exact Hnext.
    + intros (w1 & Hpre & Hcopy). inversion Hrun; subst. cbn [reader_pc reader_message].
      exists w1, (set_imask false w). split; [exact Hpre|]. split; [|apply rtc_refl].
      unfold CANget. unfold mbind, M_bind, DisableInterrupts, EnableInterrupts in *.
      rewrite Hcopy. reflexivity.
    + congruence.
  - unfold race_inv. destruct f as [p m]. cbn [reader_pc reader_message].
    assert (Hh : handler_step w w') by (econstructor; eassumption).
    destruct p as [|i| |].
    + intros [-> Hpre]. split; [reflexivity|]. eapply rtc_r; eassumption.
    + intros (w1 & _ & _ & Hcopy). exfalso.
      unfold mbind, M_bind, DisableInterrupts in Hcopy.
      destruct (CANget_copy_inv _ _ _ _ _ _ Hcopy) as [-> _]. discriminate.
    + intros (w1 & _ & Hcopy). exfalso.
      unfold mbind, M_bind, DisableInterrupts in Hcopy.
      destruct (CANget_copy_inv _ _ _ _ _ _ Hcopy) as [-> _]. discriminate.
    + intros (w1 & w2 & Hpre & Hget & Hpost). exists w1, w2.
      split; [exact Hpre|]. split; [exact Hget|]. eapply rtc_r; eassumption.
Qed.

Lemma race_inv_run (message : list Z) (w0 : world) (s s' : reader * world) :
  rtc race_step s s' -> race_inv message w0 s -> race_inv message w0 s'.
Proof.
  induction 1 as [s | s s1 s' Hstep _ IH]; intros Hinv.
  - exact Hinv.
  - apply IH. eapply race_inv_step; eassumption.
Qed.

(** On the simulated peripheral: both frames arrive while the reader is
    about to disable interrupts, then the reader runs to its end. *)
Lemma sim_race_handlers :
  rtc race_step (Reader AtDisable (replicate 8 0), sim_world)
                (Reader AtDisable (replicate 8 0), sim_two_frames_world).
Proof.
  eapply rtc_l.
  { apply (step_handler _ sim_world 8 sim_first sim_one_frame_world);
      vm_compute; reflexivity. }
  eapply rtc_l.
  { apply (step_handler _ sim_one_frame_world 3 sim_second sim_two_frames_world);
      vm_compute; reflexivity. }
  apply rtc_refl.
Qed.

Lemma reader_run_steps (n : nat) (f : reader) (w : world) (s' : reader * world) :
  reader_run n f w = Some s' -> rtc race_step (f, w) s'.
Proof.
  revert f w. induction n as [|n IH]; intros f w Hrun.
  - inversion Hrun; subst. apply rtc_refl.
  - cbn [reader_run] in Hrun.
    destruct (CANget_step f w) as [f' w''| |] eqn:Hstep.
    + eapply rtc_l; [|apply IH; destruct (reader_pc f); [exact Hrun..|discriminate]].
      apply step_reader; [|exact Hstep].
      destruct (reader_pc f); discriminate.
    + destruct (reader_pc f); discriminate.
    + destruct (reader_pc f); discriminate.
Qed.

Lemma sim_race_read :
  rtc race_step (Reader AtDisable (replicate 8 0), sim_two_frames_world)
                (Reader AtReturn [0xA1; 0xA2; 0xA3; 4; 5; 6; 7; 8], sim_read_world).
Proof.
  apply (reader_run_steps 10). vm_compute. reflexivity.
Qed.

(** C9.  However a [CANget] is interleaved with handler runs, the run is one
    of handler runs, then the whole of [CANget] with none inside it, then
    handler runs: the handler never runs between [DisableInterrupts] and
    [EnableInterrupts], so the copy is atomic with respect to it and the
    bytes returned are the mailbox as it stood at one instant, never part of
    the mailbox before a handler run and part of it after. *)
Theorem CANget_atomic (message msg : list Z) (w w' : world) :
  rtc race_step (Reader AtDisable message, w) (Reader AtReturn msg, w') ->
  exists w1 w2,
    rtc handler_step w w1 /\
    CANget message w1 = Ok msg w2 /\
    rtc handler_step w2 w' /\
    (forall k, (k < PAYLOAD_SIZE)%nat -> msg !! k = rxbuffer w1 !! k).
Proof.
  intros Hrun.
  assert (Hinv : race_inv message w (Reader AtReturn msg, w')).
  { eapply race_inv_run; [exact Hrun|]. split; [reflexivity | apply rtc_refl]. }
  destruct Hinv as (w1 & w2 & Hpre & Hget & Hpost). cbn [reader_message] in Hget.
  exists w1, w2. split; [exact Hpre|]. split; [exact Hget|]. split; [exact Hpost|].
  unfold CANget, mbind, M_bind, DisableInterrupts, EnableInterrupts in Hget.
  destruct (CANget_copy PAYLOAD_SIZE 0 message (set_imask true w1))
    as [m' w''| |] eqn:Hcopy; try discriminate.
  inversion Hget; subst.
  destruct (CANget_copy_inv _ _ _ _ _ _ Hcopy) as [_ Hbytes].
  intros k Hk. apply Hbytes. lia.
Qed.

Lemma CANget_atomic_witness :
  exists w1 w2,
    rtc handler_step sim_world w1 /\
    CANget (replicate 8 0) w1 = Ok [0xA1; 0xA2; 0xA3; 4; 5; 6; 7; 8] w2 /\
    rtc handler_step w2 sim_read_world /\
    (forall k, (k < PAYLOAD_SIZE)%nat ->
       [0xA1; 0xA2; 0xA3; 4; 5; 6; 7; 8] !! k = rxbuffer w1 !! k).
Proof.
  apply (CANget_atomic (replicate 8 0) [0xA1; 0xA2; 0xA3; 4; 5; 6; 7; 8]
           sim_world sim_read_world).
  eapply rtc_trans; [exact sim_race_handlers | exact sim_race_read].
Defined.

(** ** Busy-waits that never end *)

(** A busy-wait on a register that never shows what is waited for is still
    polling whatever the fuel. *)
Lemma wait_until_spins (status : nat -> nat -> Z) (fuel a : nat) (done : Z -> bool)
    (w : world) :
  (a < length (regs w))%nat ->
  (forall t, (polls w <= t)%nat -> done (status t a) = false) ->
  wait_until status fuel a done w = Spin.
Proof.
  revert w. induction fuel as [|fuel IH]; intros w Ha Hnever.
  - reflexivity.
  - cbn [wait_until]. unfold mbind, M_bind, poll.
    destruct (decide (a < length (regs w))%nat); [|lia].
    rewrite (Hnever (polls w)) by lia. apply IH.
    + cbn [regs tick set_regs]. rewrite length_insert. exact Ha.
    + intros t Ht. cbn [polls tick set_regs] in Ht. apply Hnever. lia.
Qed.

Lemma spin_bind {A B : Type} (m : M A) (f : A -> M B) (w : world) :
  wp m (fun a w' => f a w' = Spin) w -> (m ≫= f) w = Spin.
Proof.
  unfold wp, mbind, M_bind. destruct (m w) as [a w'| |]; intros H; [exact H | destruct H..].
Qed.

(** [CANinit] has no way out of its first wait: with a controller that never
    sets the initialisation acknowledge bit it does not return, whatever the
    number of polls it is given. *)
Theorem CANinit_hangs_without_acknowledge (status : nat -> nat -> Z) (lb : bool)
    (id : Z) (w : world) :
  length (regs w) = MSCAN_SIZE ->
  (forall t, (polls w <= t)%nat -> Z.land (status t CANCTL1) CANCTL1_INITAK = 0) ->
  forall fuel, CANinit status lb fuel id w = Spin.
Proof.
  intros Hregs Hnever fuel.
  destruct (lookup_lt_is_Some_2 (regs w) CANCTL0) as [c0 Hc0]; [addr|].
  destruct (lookup_lt_is_Some_2 (regs w) CANCTL1) as [c1 Hc1]; [addr|].
  unfold CANinit.
  apply spin_bind. wp_field_step.
  apply spin_bind. wp_field_step.
  unfold mbind at 1, M_bind at 1. rewrite wait_until_spins; [reflexivity | reg_len |].
  intros t Ht. world_simpl_in Ht. rewrite (Hnever t Ht). reflexivity.
Qed.

Lemma CANinit_hangs_without_acknowledge_witness :
  CANinit silent_status false 1000 0x123 sim_world = Spin.
Proof.
  apply (CANinit_hangs_without_acknowledge silent_status false 0x123 sim_world);
    [reflexivity | intros t Ht; reflexivity].
Defined.

(** [CANsend] has no way out of its wait either: once it has released a
    buffer, a controller that never shows that buffer's flag again keeps it
    polling for ever.  Nothing times out and no status is returned. *)
Theorem CANsend_hangs_without_completion (status : nat -> nat -> Z)
    (frame : CANframe.t) (w : world) (flg : Z) :
  length (regs w) = MSCAN_SIZE ->
  regs w !! CANTFLG = Some flg ->
  Z.land flg CANTFLG_TXE_MASK <> 0 ->
  (Z.to_nat (Z.min (CANframe.length frame) 8) <= length (CANframe.payload frame))%nat ->
  (forall t, (polls w <= t)%nat ->
     Z.land (status t CANTFLG) (lowest_tx flg) <> lowest_tx flg) ->
  forall fuel, CANsend status fuel frame w = Spin.
Proof.
  intros Hregs Hflg Htxe Hpay Hnever fuel.
  destruct (clamp_length_fields frame) as (Hid & Hprio & Hpl & Hlen).
  assert (Hn : (Z.to_nat (CANframe.length (clamp_length frame)) <= 8)%nat) by lia.
  assert (Hsel : controller_store CANTBSEL flg (regs w) = <[CANTBSEL := lowest_tx flg]> (regs w)).
  { unfold controller_store. destruct (decide (CANTBSEL = CANTBSEL)); [reflexivity | congruence]. }
  unfold CANsend.
  apply spin_bind. eapply wp_load; [exact Hflg|].
  rewrite (proj2 (Z.eqb_neq _ _) Htxe).
  apply spin_bind. eapply wp_load; [exact Hflg|].
  apply spin_bind. wp_store_step. rewrite Hsel.
  apply spin_bind. eapply wp_load.
  { world_simpl. apply list_lookup_insert_eq. addr. }
  apply spin_bind. unfold store_dword.
  apply wp_bind. wp_store_step. rewrite controller_store_plain by addr.
  apply wp_bind. wp_store_step. rewrite controller_store_plain by addr.
  apply wp_bind. wp_store_step. rewrite controller_store_plain by addr.
  wp_store_step. rewrite controller_store_plain by addr.
  change (if 8 <? CANframe.length frame then CANframe.set_length 8 frame else frame)
    with (clamp_length frame).
  apply spin_bind. eapply wp_mono.
  { apply tx_copy_spec; [world_simpl; rewrite !length_insert; exact Hregs | exact Hn
                        | rewrite Hpl, Hlen; exact Hpay]. }
  intros [] w6 (r & -> & Hlr & _ & _). world_simpl.
  apply spin_bind. wp_store_step. rewrite controller_store_plain by addr.
  apply spin_bind. wp_store_step. rewrite controller_store_plain by addr.
  apply spin_bind. wp_store_step.
  unfold mbind at 1, M_bind at 1. rewrite wait_until_spins; [reflexivity | reg_len |].
  intros t Ht. world_simpl_in Ht. apply Z.eqb_neq. apply Hnever. exact Ht.
Qed.

Lemma CANsend_hangs_without_completion_witness :
  CANsend silent_status 1000 sim_frame sim_world = Spin.
Proof.
  apply (CANsend_hangs_without_completion silent_status sim_frame sim_world 7);
    [reflexivity | reflexivity | vm_compute; discriminate | vm_compute; lia
    | intros t Ht; vm_compute; discriminate].
Defined.

(** ** The handler at its bounds *)

Lemma bind_ok {A B : Type} (m : M A) (f : A -> M B) (w : world) (a : A) (w' : world) :
  m w = Ok a w' -> (m ≫= f) w = f a w'.
Proof. intros H. unfold mbind, M_bind. rewrite H. reflexivity. Qed.

Lemma bind_fault {A B : Type} (m : M A) (f : A -> M B) (w : world) :
  m w = Fault -> (m ≫= f) w = Fault.
Proof. intros H. unfold mbind, M_bind. rewrite H. reflexivity. Qed.

(** The handler's copy loop runs off the end of [rxbuffer] as soon as it is
    asked for more rounds than the buffer has slots left. *)
Lemma rx_copy_overruns (n i : nat) (w : world) :
  length (regs w) = MSCAN_SIZE ->
  (i <= length (rxbuffer w))%nat ->
  (length (rxbuffer w) < i + n)%nat ->
  (CANRXDSR0 + length (rxbuffer w) < MSCAN_SIZE)%nat ->
  for_loop n i (fun i => v ← load (CANRXDSR0 + i)%nat; rxbuffer_store i v) w = Fault.
Proof.
  revert i w. induction n as [|n IH]; intros i w Hregs Hi Hover Hwin; [lia|].
  destruct (lookup_lt_is_Some_2 (regs w) (CANRXDSR0 + i)%nat) as [v Hv]; [lia|].
  cbn [for_loop].
  destruct (decide (i < length (rxbuffer w))%nat) as [Hlt|Hge].
  - rewrite (bind_ok _ _ w tt (set_rxbuffer (<[i := v]> (rxbuffer w)) w)).
    + apply IH; cbn [regs rxbuffer set_rxbuffer]; rewrite ?length_insert;
        [exact Hregs | lia | lia | exact Hwin].
    + unfold mbind, M_bind, load, rxbuffer_store. rewrite Hv.
      destruct (decide (i < length (rxbuffer w))%nat); [reflexivity | lia].
  - apply bind_fault. unfold mbind, M_bind, load, rxbuffer_store. rewrite Hv.
    destruct (decide (i < length (rxbuffer w))%nat); [lia | reflexivity].
Qed.

(** The handler does not check the length code against the size of the
    mailbox: a code of 9 to 15 makes it write [rxbuffer] past its eighth
    byte. *)
Theorem CANreceiveISR_length_code_overruns (w : world) (L : nat) :
  length (regs w) = MSCAN_SIZE ->
  length (rxbuffer w) = PAYLOAD_SIZE ->
  Z.land (regs w !!! CANRXDLR) CANRXDLR_DLC_MASK = Z.of_nat L ->
  (PAYLOAD_SIZE < L)%nat ->
  CANreceiveISR w = Fault.
Proof.
  intros Hregs Hrx HL Hover.
  destruct (lookup_lt_is_Some_2 (regs w) CANRXDLR) as [dlr Hdlr];
    [rewrite Hregs; unfold CANRXDLR, MSCAN_SIZE; lia|].
  rewrite (list_lookup_total_correct _ _ _ Hdlr) in HL.
  unfold CANreceiveISR.
  rewrite (bind_ok _ _ w dlr w) by (unfold load; rewrite Hdlr; reflexivity).
  rewrite HL, Nat2Z.id. apply bind_fault.
  apply rx_copy_overruns; [exact Hregs | lia | lia |].
  rewrite Hrx. unfold CANRXDSR0, PAYLOAD_SIZE, MSCAN_SIZE. lia.
Qed.

Lemma CANreceiveISR_length_code_overruns_witness :
  CANreceiveISR sim_overflow_world = Fault.
Proof.
  apply (CANreceiveISR_length_code_overruns sim_overflow_world 9);
    [reflexivity | reflexivity | reflexivity | vm_compute; lia].
Defined.

Lemma land_ldiff_same (x m : Z) : Z.land (Z.ldiff x m) m = 0.
Proof.
  apply Z.bits_inj'. intros i Hi.
  rewrite Z.land_spec, Z.ldiff_spec, Z.bits_0.
  destruct (Z.testbit x i), (Z.testbit m i); reflexivity.
Qed.

(** What the handler does to the controller: one store, of the RXF mask to
    CANRFLG, which leaves the receive-buffer-full flag clear; every other
    register, the interrupt mask and the poll count are as they were. *)
Theorem CANreceiveISR_footprint (w : world) (L : nat) :
  length (regs w) = MSCAN_SIZE ->
  Z.land (regs w !!! CANRXDLR) CANRXDLR_DLC_MASK = Z.of_nat L ->
  (L <= length (rxbuffer w))%nat ->
  exists w',
    CANreceiveISR w = Ok tt w' /\
    trace w' = trace w ++ [EvStore CANRFLG CANRFLG_RXF_MASK] /\
    (forall a, a <> CANRFLG -> regs w' !! a = regs w !! a) /\
    Z.land (regs w' !!! CANRFLG) CANRFLG_RXF_MASK = 0 /\
    imask w' = imask w /\
    polls w' = polls w.
Proof.
  intros Hregs HL Hbuf.
  destruct (CANreceiveISR_spec w L Hregs HL Hbuf) as (buf & Hrun & _).
  eexists. split; [exact Hrun|]. cbn [regs trace imask polls].
  split; [reflexivity|]. split; [|split; [|split; reflexivity]].
  - intros a Ha. apply lookup_controller_store_ne. congruence.
  - unfold controller_store.
    destruct (decide (CANRFLG = CANTBSEL)) as [Heq|_]; [discriminate Heq|].
    destruct (decide (CANRFLG = CANTFLG)) as [Heq|_]; [discriminate Heq|].
    destruct (decide (CANRFLG = CANRFLG)) as [_|Hne]; [|congruence].
    rewrite list_lookup_total_insert_eq by addr. apply land_ldiff_same.
Qed.

Lemma CANreceiveISR_footprint_witness :
  exists w',
    CANreceiveISR sim_rx_world = Ok tt w' /\
    trace w' = trace sim_rx_world ++ [EvStore CANRFLG CANRFLG_RXF_MASK] /\
    (forall a, a <> CANRFLG -> regs w' !! a = regs sim_rx_world !! a) /\
    Z.land (regs w' !!! CANRFLG) CANRFLG_RXF_MASK = 0 /\
    imask w' = imask sim_rx_world /\
    polls w' = polls sim_rx_world.
Proof.
  apply (CANreceiveISR_footprint sim_rx_world 3);
    [reflexivity | reflexivity | vm_compute; lia].
Defined.

(** A frame with length code 0 still raises the availability flag, and
    leaves every byte of the mailbox as it was: what [CANget] then returns is
    the previous message. *)
Theorem CANreceiveISR_empty_frame (w : world) :
  length (regs w) = MSCAN_SIZE ->
  Z.land (regs w !!! CANRXDLR) CANRXDLR_DLC_MASK = 0 ->
  exists w',
    CANreceiveISR w = Ok tt w' /\
    rxbuffer w' = rxbuffer w /\
    data_available_flag w' = 1.
Proof.
  intros Hregs HL.
  destruct (CANreceiveISR_spec w 0 Hregs HL ltac:(lia)) as (buf & Hrun & Hlen & _ & Hold).
  eexists. split; [exact Hrun|]. cbn [rxbuffer data_available_flag].
  split; [|reflexivity]. apply list_eq. intros k. apply Hold. lia.
Qed.

Lemma CANreceiveISR_empty_frame_witness :
  exists w',
    CANreceiveISR (set_regs sim_regs sim_rx_world) = Ok tt w' /\
    rxbuffer w' = rxbuffer (set_regs sim_regs sim_rx_world) /\
    data_available_flag w' = 1.
Proof.
  apply (CANreceiveISR_empty_frame (set_regs sim_regs sim_rx_world));
    [reflexivity | reflexivity].
Defined.

(** ** Using the mailbox *)

(** [CANget] and [data_used] end with [EnableInterrupts] whatever the mask
    was when they were called: a caller that had interrupts disabled gets
    them back enabled.  The previous mask is not restored. *)
Theorem critical_sections_leave_interrupts_enabled (message : list Z) (w : world) :
  length (rxbuffer w) = PAYLOAD_SIZE ->
  (PAYLOAD_SIZE <= length message)%nat ->
  (exists msg w', CANget message w = Ok msg w' /\ imask w' = false) /\
  (exists w', data_used w = Ok tt w' /\ imask w' = false).
Proof.
  intros Hrx Hmsg. split.
  - eexists _, _. split; [apply CANget_spec; assumption | reflexivity].
  - eexists. split; reflexivity.
Qed.

Lemma critical_sections_leave_interrupts_enabled_witness :
  imask sim_masked_world = true /\
  (exists msg w', CANget (replicate 8 0) sim_masked_world = Ok msg w' /\ imask w' = false) /\
  (exists w', data_used sim_masked_world = Ok tt w' /\ imask w' = false).
Proof.
  split; [reflexivity|].
  apply (critical_sections_leave_interrupts_enabled (replicate 8 0) sim_masked_world);
    [reflexivity | vm_compute; lia].
Defined.

(** Reading does not consume: two [CANget] in a row return the same mailbox
    bytes, and neither the flag nor the mailbox has changed; only
    [data_used] moves the mailbox on. *)
Theorem CANget_twice (m1 m2 : list Z) (w : world) :
  length (rxbuffer w) = PAYLOAD_SIZE ->
  (PAYLOAD_SIZE <= length m1)%nat ->
  (PAYLOAD_SIZE <= length m2)%nat ->
  exists w',
    (a ← CANget m1; b ← CANget m2; mret (a, b)) w
      = Ok (rxbuffer w ++ drop PAYLOAD_SIZE m1, rxbuffer w ++ drop PAYLOAD_SIZE m2) w' /\
    rxbuffer w' = rxbuffer w /\
    data_available_flag w' = data_available_flag w.
Proof.
  intros Hrx H1 H2. eexists. split.
  - rewrite (bind_ok _ _ w _ _ (CANget_spec m1 w Hrx H1)).
    rewrite (bind_ok _ _ _ _ _ (CANget_spec m2 (set_imask false w) Hrx H2)).
    reflexivity.
  - split; reflexivity.
Qed.

Lemma CANget_twice_witness :
  exists w',
    (a ← CANget (replicate 8 0); b ← CANget (replicate 9 7); mret (a, b)) sim_rx_world
      = Ok (rxbuffer sim_rx_world ++ drop PAYLOAD_SIZE (replicate 8 0),
            rxbuffer sim_rx_world ++ drop PAYLOAD_SIZE (replicate 9 7)) w' /\
    rxbuffer w' = rxbuffer sim_rx_world /\
    data_available_flag w' = data_available_flag sim_rx_world.
Proof.
  apply (CANget_twice (replicate 8 0) (replicate 9 7) sim_rx_world);
    [reflexivity | vm_compute; lia | vm_compute; lia].
Defined.

(** [data_used] clears the flag without looking at the mailbox: a frame that
    arrived after the last read is no longer announced ([data_available]
    returns 0) although it is what [CANget] returns. *)
Theorem data_used_hides_unread_frame (w : world) (L : nat) (data message : list Z) :
  length (regs w) = MSCAN_SIZE ->
  length data = PAYLOAD_SIZE ->
  length (rxbuffer w) = PAYLOAD_SIZE ->
  (PAYLOAD_SIZE <= length message)%nat ->
  (L <= PAYLOAD_SIZE)%nat ->
  exists w1 w2 msg w3,
    (CANget message ;; receive (Z.of_nat L) data) w = Ok tt w1 /\
    data_available w1 = Ok 1 w1 /\
    data_used w1 = Ok tt w2 /\
    data_available w2 = Ok 0 w2 /\
    CANget message w2 = Ok msg w3 /\
    take L msg = take L data.
Proof.
  intros Hregs Hdata Hrx Hmsg HL.
  destruct (receive_spec (set_imask false w) L data Hregs Hdata Hrx HL)
    as (w1 & Hrun & _ & Hbuf & Hflag & _).
  assert (Hrx1 : length (rxbuffer w1) = PAYLOAD_SIZE).
  { rewrite Hbuf, length_app, length_take, length_drop.
    cbn [rxbuffer set_imask]. lia. }
  exists w1. eexists. eexists. eexists.
  split. { rewrite (bind_ok _ _ w _ _ (CANget_spec message w Hrx Hmsg)). exact Hrun. }
  split. { unfold data_available. rewrite Hflag. reflexivity. }
  split. { reflexivity. }
  split. { reflexivity. }
  split. { apply CANget_spec; [exact Hrx1 | exact Hmsg]. }
  cbn [rxbuffer set_imask set_flag]. rewrite Hbuf, <- app_assoc.
  rewrite take_app_le by (rewrite length_take; lia).
  rewrite take_take. f_equal. lia.
Qed.

Lemma data_used_hides_unread_frame_witness :
  exists w1 w2 msg w3,
    (CANget (replicate 8 0) ;; receive (Z.of_nat 3) sim_second) sim_world = Ok tt w1 /\
    data_available w1 = Ok 1 w1 /\
    data_used w1 = Ok tt w2 /\
    data_available w2 = Ok 0 w2 /\
    CANget (replicate 8 0) w2 = Ok msg w3 /\
    take 3 msg = take 3 sim_second.
Proof.
  apply (data_used_hides_unread_frame sim_world 3 sim_second (replicate 8 0));
    [reflexivity | reflexivity | reflexivity | vm_compute; lia | vm_compute; lia].
Defined.

(** ** More on the transmit path *)

(** A frame of length 0 is sent without a look at its payload, which may be
    an empty array: no payload index is loaded, no data-segment register is
    stored to or changed, and the length register holds 0. *)
Theorem CANsend_empty_frame (status : nat -> nat -> Z) (fuel : nat) (frame : CANframe.t)
    (w : world) (flg : Z) (k : nat) :
  length (regs w) = MSCAN_SIZE ->
  regs w !! CANTFLG = Some flg ->
  Z.land flg CANTFLG_TXE_MASK <> 0 ->
  CANframe.length frame = 0 ->
  Z.land (status (polls w + k)%nat CANTFLG) (lowest_tx flg) = lowest_tx flg ->
  (k < fuel)%nat ->
  exists w' evs,
    CANsend status fuel frame w = Ok (0, frame) w' /\
    trace w' = trace w ++ evs /\
    payload_reads evs = [] /\
    data_stores evs = [] /\
    regs w' !! CANTXDLR = Some 0 /\
    (forall i, (i < 8)%nat ->
       regs w' !! (CANTXDSR0 + i)%nat = regs w !! (CANTXDSR0 + i)%nat).
Proof.
  intros Hregs Hflg Htxe Hzero Hdone Hfuel.
  assert (Hclamp : clamp_length frame = frame).
  { unfold clamp_length. rewrite Hzero. reflexivity. }
  pose proof (CANsend_accepted status fuel frame w flg k Hregs Hflg Htxe) as Hwp.
  rewrite Hclamp, Hzero in Hwp. specialize (Hwp ltac:(cbn; lia) Hdone Hfuel).
  apply wp_ok in Hwp. destruct Hwp as (res & w' & Hrun & -> & _ & Htrace & Hloaded).
  destruct (send_events_payload flg frame) as (Hreads & Hstores).
  rewrite Hclamp, Hzero in Hreads, Hstores.
  unfold loaded in Hloaded. rewrite Hclamp, Hzero in Hloaded.
  destruct Hloaded as (_ & _ & _ & _ & _ & _ & _ & Hdlr & _ & Hother).
  exists w', (send_events flg frame).
  split; [exact Hrun|]. split; [exact Htrace|]. split; [exact Hreads|].
  split; [exact Hstores|]. split; [exact Hdlr|].
  intros i Hi. apply Hother; addr.
Qed.

Lemma CANsend_empty_frame_witness :
  exists w' evs,
    CANsend sim_status 5 sim_empty_frame sim_world = Ok (0, sim_empty_frame) w' /\
    trace w' = trace sim_world ++ evs /\
    payload_reads evs = [] /\
    data_stores evs = [] /\
    regs w' !! CANTXDLR = Some 0 /\
    (forall i, (i < 8)%nat ->
       regs w' !! (CANTXDSR0 + i)%nat = regs sim_world !! (CANTXDSR0 + i)%nat).
Proof.
  apply (CANsend_empty_frame sim_status 5 sim_empty_frame sim_world 7 0);
    [reflexivity | reflexivity | vm_compute; discriminate | reflexivity | reflexivity | lia].
Defined.

(** ** Identifiers wider than 11 bits *)

Lemma shiftl_5_low_bits (id : Z) :
  Z.shiftl id 5 mod 2 ^ 16 = Z.shiftl (id mod 2 ^ 11) 5 mod 2 ^ 16.
Proof.
  rewrite !Z.shiftl_mul_pow2 by lia.
  change (2 ^ 5) with 32. change (2 ^ 16) with 65536. change (2 ^ 11) with 2048.
  Z.div_mod_to_equations. lia.
Qed.

Lemma shiftl_21_low_bits (id : Z) :
  Z.shiftl id (5 + 16) mod 2 ^ 32 = Z.shiftl (id mod 2 ^ 11) (5 + 16) mod 2 ^ 32.
Proof.
  rewrite !Z.shiftl_mul_pow2 by lia.
  change (2 ^ (5 + 16)) with 2097152. change (2 ^ 32) with 4294967296.
  change (2 ^ 11) with 2048.
  Z.div_mod_to_equations. lia.
Qed.

(** [CANinit] uses the low 11 bits of its argument only: the shift by 5 in
    16 bits drops the rest, so an identifier and its low 11 bits program the
    same filter and leave the same state. *)
Theorem CANinit_ignores_high_bits (status : nat -> nat -> Z) (lb : bool) (fuel : nat)
    (id : Z) (w : world) :
  CANinit status lb fuel id w = CANinit status lb fuel (id mod 2 ^ 11) w.
Proof.
  unfold CANinit. rewrite (shiftl_5_low_bits id). reflexivity.
Qed.

Lemma result_with_id_bind {A : Type} (m : M A) (f g : A -> M (Z * CANframe.t))
    (i : Z) (w : world) :
  (forall a w', f a w' = result_with_id i (g a w')) ->
  (m ≫= f) w = result_with_id i ((m ≫= g) w).
Proof.
  intros Hfg. unfold mbind, M_bind. destruct (m w); [apply Hfg | reflexivity..].
Qed.

(** So does [CANsend]: the 32-bit shift by 21 drops every identifier bit
    above the 11th, silently.  Two frames that differ only there are sent
    alike: same status, same registers, same accesses; the frames returned
    differ in the identifier only. *)
Theorem CANsend_ignores_high_bits (status : nat -> nat -> Z) (fuel : nat)
    (frame : CANframe.t) (w : world) :
  CANsend status fuel (with_id (CANframe.id frame mod 2 ^ 11) frame) w =
  result_with_id (CANframe.id frame mod 2 ^ 11) (CANsend status fuel frame w).
Proof.
  destruct frame as [i p l pl]. unfold with_id, CANsend.
  cbn [CANframe.id CANframe.priority CANframe.length CANframe.payload].
  rewrite <- (shiftl_21_low_bits i).
  destruct (8 <? l); unfold payload_load, CANframe.set_length;
    cbn [CANframe.id CANframe.priority CANframe.length CANframe.payload].
  - apply result_with_id_bind. intros flg w0.
    destruct (Z.land flg CANTFLG_TXE_MASK =? 0); [reflexivity|].
    repeat (apply result_with_id_bind; intros ? ?). reflexivity.
  - apply result_with_id_bind. intros flg w0.
    destruct (Z.land flg CANTFLG_TXE_MASK =? 0); [reflexivity|].
    repeat (apply result_with_id_bind; intros ? ?). reflexivity.
Qed.

(** ** More on initialisation *)




(** Which identifiers the programmed filter lets through, for an 11-bit
    [id]. *)
Lemma CANinit_accepts (status : nat -> nat -> Z) (lb : bool) (fuel : nat) (id : Z)
    (w : world) (k1 k2 : nat) :
  length (regs w) = MSCAN_SIZE ->
  (forall j, (j < k1)%nat ->
     Z.land (status (polls w + j)%nat CANCTL1) CANCTL1_INITAK = 0) ->
  Z.land (status (polls w + k1)%nat CANCTL1) CANCTL1_INITAK <> 0 ->
  Z.land (status (polls w + k1 + 1 + k2)%nat CANCTL1) CANCTL1_INITAK = 0 ->
  (k1 < fuel)%nat ->
  (k2 < fuel)%nat ->
  0 <= id < 2 ^ 11 ->
  exists w',
    CANinit status lb fuel id w = Ok tt w' /\
    (forall ident low, 0 <= low < 2 ^ 5 ->
       accepts (word_at (regs w') CANIDMR0) (word_at (regs w') CANIDAR0)
               (rx_idword ident low) = true
       <-> Z.land ident id = id).
Proof.
  intros Hregs Hfirst Hack Hleave Hk1 Hk2 Hid.
  pose proof (CANinit_spec status lb fuel id w k1 k2 Hregs Hfirst Hack Hleave Hk1 Hk2) as Hwp.
  apply wp_ok in Hwp.
  destruct Hwp as ([] & w' & Hrun & _ & b0 & b1 & _ & _ & _ & _ & Hm0 & Hm1 & Hc0 & Hc1).
  fold (filter_code id) in Hm0, Hm1, Hc0, Hc1. fold (filter_mask id) in Hm0, Hm1.
  destruct (filter_mask_care_bits id Hid) as (Hmrange & Hcare & Hcode).
  assert (Hcrange : 0 <= filter_code id < 2 ^ 16).
  { unfold filter_code. apply Z.mod_pos_bound. lia. }
  exists w'. split; [exact Hrun|]. intros ident low Hlow.
  unfold accepts, word_at.
  rewrite (list_lookup_total_correct _ _ _ Hc0), (list_lookup_total_correct _ _ _ Hc1),
    (list_lookup_total_correct _ _ _ Hm0), (list_lookup_total_correct _ _ _ Hm1).
  rewrite !word_of_bytes by assumption. rewrite Hcare, Hcode.
  rewrite Z.eqb_eq, land_lxor_care, rx_idword_land by exact Hlow.
  rewrite !Z.shiftl_mul_pow2 by lia. lia.
Qed.

(** The filter [CANinit] programs is never exclusive of identifier 0x7FF:
    whatever 11-bit [id] it is given, frames with identifier 0x7FF are
    accepted; and with [id] 0 every identifier is accepted, so that
    [CANinit 0] filters nothing. *)
Theorem CANinit_filter_lets_all_ones_through (status : nat -> nat -> Z) (lb : bool)
    (fuel : nat) (id : Z) (w : world) (k1 k2 : nat) :
  length (regs w) = MSCAN_SIZE ->
  (forall j, (j < k1)%nat ->
     Z.land (status (polls w + j)%nat CANCTL1) CANCTL1_INITAK = 0) ->
  Z.land (status (polls w + k1)%nat CANCTL1) CANCTL1_INITAK <> 0 ->
  Z.land (status (polls w + k1 + 1 + k2)%nat CANCTL1) CANCTL1_INITAK = 0 ->
  (k1 < fuel)%nat ->
  (k2 < fuel)%nat ->
  0 <= id < 2 ^ 11 ->
  exists w',
    CANinit status lb fuel id w = Ok tt w' /\
    (forall low, 0 <= low < 2 ^ 5 ->
       accepts (word_at (regs w') CANIDMR0) (word_at (regs w') CANIDAR0)
               (rx_idword (2 ^ 11 - 1) low) = true) /\
    (id = 0 ->
     forall ident low, 0 <= low < 2 ^ 5 ->
       accepts (word_at (regs w') CANIDMR0) (word_at (regs w') CANIDAR0)
               (rx_idword ident low) = true).
Proof.
  intros Hregs Hfirst Hack Hleave Hk1 Hk2 Hid.
  destruct (CANinit_accepts status lb fuel id w k1 k2 Hregs Hfirst Hack Hleave Hk1 Hk2 Hid)
    as (w' & Hrun & Hacc).
  exists w'. split; [exact Hrun|]. split.
  - intros low Hlow. apply Hacc; [exact Hlow|].
    rewrite Z.land_comm. change (2 ^ 11 - 1) with (Z.ones 11).
    rewrite Z.land_ones by lia. apply Z.mod_small. exact Hid.
  - intros -> ident low Hlow. apply Hacc; [exact Hlow|]. apply Z.land_0_r.
Qed.

Lemma CANinit_filter_lets_all_ones_through_witness :
  exists w',
    CANinit sim_status false 5 0 sim_world = Ok tt w' /\
    (forall low, 0 <= low < 2 ^ 5 ->
       accepts (word_at (regs w') CANIDMR0) (word_at (regs w') CANIDAR0)
               (rx_idword (2 ^ 11 - 1) low) = true) /\
    (0 = 0 ->
     forall ident low, 0 <= low < 2 ^ 5 ->
       accepts (word_at (regs w') CANIDMR0) (word_at (regs w') CANIDAR0)
               (rx_idword ident low) = true).
Proof.
  apply (CANinit_filter_lets_all_ones_through sim_status false 5 0 sim_world 0 0);
    [reflexivity | intros j Hj; lia | vm_compute; discriminate | reflexivity | lia | lia
    | vm_compute; split; [discriminate | reflexivity]].
Defined.

(** ** What a send leaves alone *)

(** A send that found a buffer changes no register below the transmit
    window other than CANTFLG and CANTBSEL, so the timing and the acceptance
    filter programmed by [CANinit] survive it; and the data-segment registers
    from index min(length, 8) on keep the bytes of whatever was sent
    before. *)
Theorem CANsend_keeps_other_registers (status : nat -> nat -> Z) (fuel : nat)
    (frame : CANframe.t) (w : world) (flg : Z) (k : nat) :
  length (regs w) = MSCAN_SIZE ->
  regs w !! CANTFLG = Some flg ->
  Z.land flg CANTFLG_TXE_MASK <> 0 ->
  (Z.to_nat (Z.min (CANframe.length frame) 8) <= length (CANframe.payload frame))%nat ->
  Z.land (status (polls w + k)%nat CANTFLG) (lowest_tx flg) = lowest_tx flg ->
  (k < fuel)%nat ->
  exists w',
    CANsend status fuel frame w = Ok (0, clamp_length frame) w' /\
    (forall a, (a < CANTXIDR0)%nat -> a <> CANTFLG -> a <> CANTBSEL ->
       regs w' !! a = regs w !! a) /\
    (forall i, (Z.to_nat (Z.min (CANframe.length frame) 8) <= i < 8)%nat ->
       regs w' !! (CANTXDSR0 + i)%nat = regs w !! (CANTXDSR0 + i)%nat) /\
    prescaler (regs w') = prescaler (regs w) /\
    quanta_per_bit (regs w') = quanta_per_bit (regs w) /\
    word_at (regs w') CANIDMR0 = word_at (regs w) CANIDMR0 /\
    word_at (regs w') CANIDAR0 = word_at (regs w) CANIDAR0.
Proof.
  intros Hregs Hflg Htxe Hpay Hdone Hfuel.
  destruct (clamp_length_fields frame) as (_ & _ & _ & Hlen).
  pose proof (CANsend_accepted status fuel frame w flg k Hregs Hflg Htxe) as Hwp.
  rewrite Hlen in Hwp. specialize (Hwp Hpay Hdone Hfuel).
  apply wp_ok in Hwp. destruct Hwp as (res & w' & Hrun & -> & _ & _ & Hloaded).
  unfold loaded in Hloaded. rewrite Hlen in Hloaded.
  destruct Hloaded as (_ & _ & _ & _ & _ & _ & _ & _ & _ & Hother).
  assert (Hlow : forall a, (a < CANTXIDR0)%nat -> a <> CANTFLG -> a <> CANTBSEL ->
            regs w' !! a = regs w !! a).
  { intros a Ha H1 H2. apply Hother; addr. }
  assert (Htot : forall a, (a < CANTXIDR0)%nat -> a <> CANTFLG -> a <> CANTBSEL ->
            regs w' !!! a = regs w !!! a).
  { intros a Ha H1 H2. rewrite !list_lookup_total_alt, Hlow by assumption. reflexivity. }
  exists w'. split; [exact Hrun|]. split; [exact Hlow|]. split.
  { intros i Hi. apply Hother; addr. }
  unfold prescaler, quanta_per_bit, time_seg1, time_seg2, word_at.
  rewrite !Htot by addr. repeat split.
Qed.

Lemma CANsend_keeps_other_registers_witness :
  exists w',
    CANsend sim_status 5 sim_frame sim_world = Ok (0, clamp_length sim_frame) w' /\
    (forall a, (a < CANTXIDR0)%nat -> a <> CANTFLG -> a <> CANTBSEL ->
       regs w' !! a = regs sim_world !! a) /\
    (forall i, (Z.to_nat (Z.min (CANframe.length sim_frame) 8) <= i < 8)%nat ->
       regs w' !! (CANTXDSR0 + i)%nat = regs sim_world !! (CANTXDSR0 + i)%nat) /\
    prescaler (regs w') = prescaler (regs sim_world) /\
    quanta_per_bit (regs w') = quanta_per_bit (regs sim_world) /\
    word_at (regs w') CANIDMR0 = word_at (regs sim_world) CANIDMR0 /\
    word_at (regs w') CANIDAR0 = word_at (regs sim_world) CANIDAR0.
Proof.
  apply (CANsend_keeps_other_registers sim_status 5 sim_frame sim_world 7 0);
    [reflexivity | reflexivity | vm_compute; discriminate | vm_compute; lia
    | reflexivity | lia].
Defined.

(** Neither [CANinit] nor [CANsend] touches the interrupt mask: whatever the
    state either is called in, when it returns interrupts are enabled or
    disabled as the caller had them, so that the busy waits run with the
    receive handler as the caller left it. *)
Theorem busy_waits_keep_interrupt_mask (status : nat -> nat -> Z) (lb : bool)
    (fuel : nat) (id : Z) (frame : CANframe.t) :
  (forall w w', CANinit status lb fuel id w = Ok tt w' -> imask w' = imask w) /\
  (forall w res w', CANsend status fuel frame w = Ok res w' -> imask w' = imask w).
Proof.
  split.
  - intros w w' Hrun.
    exact (proj2 (proj2 (wlp_elim _ _ _ _ _ (keeps_CANinit status lb fuel id w) Hrun))).
  - intros w res w' Hrun.
    exact (proj2 (proj2 (wlp_elim _ _ _ _ _ (keeps_CANsend status fuel frame w) Hrun))).
Qed.

Lemma busy_waits_keep_interrupt_mask_witness :
  imask sim_masked_world = true /\
  imask sim_masked_init_world = imask sim_masked_world /\
  imask sim_masked_sent_world = imask sim_masked_world.
Proof.
  destruct (busy_waits_keep_interrupt_mask sim_status false 5 0x123 sim_frame)
    as [Hinit Hsend].
  split; [reflexivity|]. split.
  - apply (Hinit sim_masked_world sim_masked_init_world). vm_compute. reflexivity.
  - apply (Hsend sim_masked_world (0, sim_frame) sim_masked_sent_world).
    vm_compute. reflexivity.
Defined.

(** ** The registers an initialisation leaves alone *)

Lemma changes_only_ret (S : list nat) {A : Type} (a : A) : changes_only S (mret a : M A).
Proof. intros w a' _. reflexivity. Qed.

Lemma changes_only_bind (S : list nat) {A B : Type} (m : M A) (f : A -> M B) :
  changes_only S m -> (forall a, changes_only S (f a)) -> changes_only S (m ≫= f).
Proof.
  intros Hm Hf w. apply wlp_bind. eapply wlp_mono; [apply Hm|].
  intros a w1 H1. eapply wlp_mono; [apply Hf|].
  intros b w2 H2 a' Ha'. cbv beta in H1, H2. rewrite (H2 a' Ha'). exact (H1 a' Ha').
Qed.

Lemma changes_only_load (S : list nat) (a : nat) : changes_only S (load a).
Proof.
  intros w. unfold wlp, load. destruct (regs w !! a); [|exact I].
  intros a' _. reflexivity.
Qed.

Lemma controller_store_other (a a' : nat) (v : Z) (r : list Z) :
  a' <> a -> controller_store a v r !! a' = r !! a'.
Proof.
  intros Hne. unfold controller_store.
  repeat (destruct (decide _)); apply list_lookup_insert_ne; congruence.
Qed.

Lemma changes_only_store (S : list nat) (a : nat) (v : Z) :
  a ∈ S -> changes_only S (store a v).
Proof.
  intros Ha w. unfold wlp, store. destruct (decide _); [|exact I].
  intros a' Ha'. world_simpl. apply controller_store_other. intros ->. exact (Ha' Ha).
Qed.

Lemma changes_only_poll (S : list nat) (status : nat -> nat -> Z) (a : nat) :
  a ∈ S -> changes_only S (poll status a).
Proof.
  intros Ha w. unfold wlp, poll. destruct (decide _); [|exact I].
  intros a' Ha'. world_simpl. apply list_lookup_insert_ne. intros ->. exact (Ha' Ha).
Qed.

Lemma changes_only_wait_until (S : list nat) (status : nat -> nat -> Z) (fuel a : nat)
    (done : Z -> bool) :
  a ∈ S -> changes_only S (wait_until status fuel a done).
Proof.
  intros Ha. induction fuel as [|fuel IH]; simpl.
  - intros w. exact I.
  - apply changes_only_bind; [apply changes_only_poll; exact Ha|].
    intros v. destruct (done v); [apply changes_only_ret | exact IH].
Qed.

Lemma changes_only_field_store (S : list nat) (a : nat) (mask x : Z) :
  a ∈ S -> changes_only S (field_store a mask x).
Proof.
  intros Ha. unfold field_store. apply changes_only_bind; [apply changes_only_load|].
  intros v. apply changes_only_store. exact Ha.
Qed.

Lemma changes_only_store_word (S : list nat) (a : nat) (v : Z) :
  a ∈ S -> (a + 1)%nat ∈ S -> changes_only S (store_word a v).
Proof.
  intros Ha Ha1. unfold store_word.
  apply changes_only_bind; [|intros ?]; apply changes_only_store; assumption.
Qed.

Ltac in_list := repeat first [apply list_elem_of_here | apply list_elem_of_further].

Lemma changes_only_CANinit (status : nat -> nat -> Z) (lb : bool) (fuel : nat) (id : Z) :
  changes_only CANinit_registers (CANinit status lb fuel id).
Proof.
  unfold CANinit, SET_MSCAN_CLK_SRC, SET_MSCAN_PRESCALE, SET_MSCAN_TIME_SEG1,
    SET_MSCAN_TIME_SEG2, SET_MSCAN_JUMP_WIDTH, SET_MSCAN_SAMPLE_BITS, MSCAN_ACC_MODE.
  repeat (apply changes_only_bind;
          [first [apply changes_only_field_store | apply changes_only_wait_until
                 | apply changes_only_store_word]; unfold CANinit_registers; in_list
          | intros ?]).
  apply changes_only_field_store. unfold CANinit_registers. in_list.
Qed.

Lemma word_at_ext (r r' : list Z) (a : nat) :
  r' !! a = r !! a -> r' !! (a + 1)%nat = r !! (a + 1)%nat -> word_at r' a = word_at r a.
Proof.
  intros H0 H1. unfold word_at. rewrite !list_lookup_total_alt, H0, H1. reflexivity.
Qed.

Lemma other_filters_apart (a : nat) :
  a ∈ other_filter_words ->
  (a ∉ CANinit_registers) /\ ((a + 1)%nat ∉ CANinit_registers).
Proof.
  unfold other_filter_words, CANinit_registers. intros Ha.
  repeat (apply elem_of_cons in Ha as [->|Ha];
          [split; intros Hin;
           repeat (apply elem_of_cons in Hin as [Hin|Hin]; [cbv in Hin; discriminate Hin|]);
           apply elem_of_nil in Hin; exact Hin|]).
  apply elem_of_nil in Ha. destruct Ha.
Qed.

(** [CANinit] programs the first of the four 16-bit acceptance filters it
    selects and no other: every register outside the ten it stores to or
    polls is as it was, so the identifier and mask words of the second, third
    and fourth filter still hold whatever they held at the call, and those
    filters go on accepting what they accepted. *)
Theorem CANinit_leaves_other_filters (status : nat -> nat -> Z) (lb : bool) (fuel : nat)
    (id : Z) (w w' : world) :
  CANinit status lb fuel id w = Ok tt w' ->
  (forall a, a ∉ CANinit_registers -> regs w' !! a = regs w !! a) /\
  (forall a, a ∈ other_filter_words -> word_at (regs w') a = word_at (regs w) a).
Proof.
  intros Hrun.
  pose proof (wlp_elim _ _ _ _ _ (changes_only_CANinit status lb fuel id w) Hrun) as Hsame.
  cbv beta in Hsame. split; [exact Hsame|].
  intros a Ha. destruct (other_filters_apart a Ha) as [H0 H1].
  apply word_at_ext; apply Hsame; assumption.
Qed.

Lemma CANinit_leaves_other_filters_witness :
  (forall a, a ∉ CANinit_registers -> regs sim_init_world !! a = regs sim_world !! a) /\
  (forall a, a ∈ other_filter_words ->
     word_at (regs sim_init_world) a = word_at (regs sim_world) a).
Proof.
  apply (CANinit_leaves_other_filters sim_status false 5 0x123 sim_world sim_init_world).
  vm_compute. reflexivity.
Defined.

(** ** Operating mode *)

Lemma stores_to_snoc_same (a : nat) (evs : list event) (v : Z) :
  stores_to a (evs ++ [EvStore a v]) = stores_to a evs ++ [v].
Proof.
  unfold stores_to. rewrite omap_app. cbn.
  destruct (decide (a = a)); [reflexivity | congruence].
Qed.

Lemma stores_to_snoc_other (a a' : nat) (evs : list event) (v : Z) :
  a' <> a -> stores_to a (evs ++ [EvStore a' v]) = stores_to a evs.
Proof.
  intros Hne. unfold stores_to. rewrite omap_app. cbn.
  destruct (decide (a' = a)); [congruence | apply app_nil_r].
Qed.

(** The last byte [CANinit] stores to CANCTL1: what the controller showed
    when it acknowledged initialisation mode, with the clock source, listen
    and loopback fields assigned in turn. *)
Lemma CANinit_mode_store (status : nat -> nat -> Z) (lb : bool) (fuel : nat) (id : Z)
    (w : world) (k1 k2 : nat) :
  length (regs w) = MSCAN_SIZE ->
  (forall j, (j < k1)%nat ->
     Z.land (status (polls w + j)%nat CANCTL1) CANCTL1_INITAK = 0) ->
  Z.land (status (polls w + k1)%nat CANCTL1) CANCTL1_INITAK <> 0 ->
  Z.land (status (polls w + k1 + 1 + k2)%nat CANCTL1) CANCTL1_INITAK = 0 ->
  (k1 < fuel)%nat ->
  (k2 < fuel)%nat ->
  wp (CANinit status lb fuel id)
     (fun _ w' =>
        last (stores_to CANCTL1 (trace w')) =
          Some (field_set
                  (field_set
                     (field_set (status (polls w + k1)%nat CANCTL1)
                                CANCTL1_CLKSRC (Z.shiftl MSCAN_CLK_SRC_BUS 6))
                     CANCTL1_LISTEN 0)
                  CANCTL1_LOOPB (if lb then CANCTL1_LOOPB else 0))) w.
Proof.
  intros Hregs Hfirst Hack Hleave Hk1 Hk2.
  destruct (lookup_lt_is_Some_2 (regs w) CANCTL0) as [c0 Hc0]; [addr|].
  destruct (lookup_lt_is_Some_2 (regs w) CANCTL1) as [c1 Hc1]; [addr|].
  destruct (lookup_lt_is_Some_2 (regs w) CANBTR0) as [b0 Hb0]; [addr|].
  destruct (lookup_lt_is_Some_2 (regs w) CANBTR1) as [b1 Hb1]; [addr|].
  destruct (lookup_lt_is_Some_2 (regs w) CANIDAC) as [ac Hac]; [addr|].
  destruct (lookup_lt_is_Some_2 (regs w) CANRIER) as [ie Hie]; [addr|].
  unfold CANinit, SET_MSCAN_CLK_SRC, SET_MSCAN_PRESCALE, SET_MSCAN_TIME_SEG1,
    SET_MSCAN_TIME_SEG2, SET_MSCAN_JUMP_WIDTH, SET_MSCAN_SAMPLE_BITS, MSCAN_ACC_MODE.
  apply wp_bind. wp_field_step.
  apply wp_bind. wp_field_step.
  apply wp_bind. eapply wp_mono.
  { apply (wp_wait_until status fuel CANCTL1 _ k1); [reg_len | | exact Hk1].
    world_simpl. apply negb_true_iff. apply Z.eqb_neq. exact Hack. }
  intros [] w1 (k1' & Hk1' & -> & Hdone1). world_simpl.
  world_simpl_in Hdone1.
  assert (k1' = k1) as ->.
  { destruct (decide (k1' < k1)%nat) as [Hlt|Hge]; [|lia].
    apply negb_true_iff, Z.eqb_neq in Hdone1. destruct Hdone1. apply Hfirst. exact Hlt. }
  clear Hdone1 Hk1'.
  do 10 (apply wp_bind; wp_field_step).
  apply wp_bind. unfold store_word at 1.
  apply wp_bind. wp_store_step. rewrite controller_store_plain by addr.
  wp_store_step. rewrite controller_store_plain by addr.
  apply wp_bind. unfold store_word at 1.
  apply wp_bind. wp_store_step. rewrite controller_store_plain by addr.
  wp_store_step. rewrite controller_store_plain by addr.
  apply wp_bind. wp_field_step.
  apply wp_bind. eapply wp_mono.
  { apply (wp_wait_until status fuel CANCTL1 _ k2); [reg_len | | exact Hk2].
    world_simpl. apply Z.eqb_eq.
    replace (S (polls w + k1) + k2)%nat with (polls w + k1 + 1 + k2)%nat by lia.
    exact Hleave. }
  intros [] w2 (k2' & _ & -> & _). world_simpl.
  unfold field_store. apply wp_bind. wp_load_step.
  apply wp_store; [reg_len|]. world_simpl.
  repeat rewrite stores_to_snoc_other by addr.
  rewrite stores_to_snoc_same. apply last_snoc.
Qed.

(** The mode [CANinit] asks for: the last byte it writes to CANCTL1 selects
    the bus clock, has listen-only mode off, and has loopback on exactly when
    the driver was compiled with USE_LOOPBACK. *)
Theorem CANinit_operating_mode (status : nat -> nat -> Z) (lb : bool) (fuel : nat)
    (id : Z) (w : world) (k1 k2 : nat) :
  length (regs w) = MSCAN_SIZE ->
  (forall j, (j < k1)%nat ->
     Z.land (status (polls w + j)%nat CANCTL1) CANCTL1_INITAK = 0) ->
  Z.land (status (polls w + k1)%nat CANCTL1) CANCTL1_INITAK <> 0 ->
  Z.land (status (polls w + k1 + 1 + k2)%nat CANCTL1) CANCTL1_INITAK = 0 ->
  (k1 < fuel)%nat ->
  (k2 < fuel)%nat ->
  exists w' c,
    CANinit status lb fuel id w = Ok tt w' /\
    last (stores_to CANCTL1 (trace w')) = Some c /\
    Z.land c CANCTL1_CLKSRC = CANCTL1_CLKSRC /\
    Z.land c CANCTL1_LISTEN = 0 /\
    Z.land c CANCTL1_LOOPB = (if lb then CANCTL1_LOOPB else 0).
Proof.
  intros Hregs Hfirst Hack Hleave Hk1 Hk2.
  pose proof (CANinit_mode_store status lb fuel id w k1 k2 Hregs Hfirst Hack Hleave Hk1 Hk2)
    as Hwp.
  apply wp_ok in Hwp. destruct Hwp as ([] & w' & Hrun & Hlast).
  eexists w', _. split; [exact Hrun|]. split; [exact Hlast|].
  split; [|split].
  - rewrite !field_set_other by reflexivity. rewrite field_set_same. reflexivity.
  - rewrite field_set_other by reflexivity. rewrite field_set_same. reflexivity.
  - rewrite field_set_same. destruct lb; reflexivity.
Qed.

Lemma CANinit_operating_mode_witness :
  exists w' c,
    CANinit sim_status true 5 0x123 sim_world = Ok tt w' /\
    last (stores_to CANCTL1 (trace w')) = Some c /\
    Z.land c CANCTL1_CLKSRC = CANCTL1_CLKSRC /\
    Z.land c CANCTL1_LISTEN = 0 /\
    Z.land c CANCTL1_LOOPB = (if true then CANCTL1_LOOPB else 0).
Proof.
  apply (CANinit_operating_mode sim_status true 5 0x123 sim_world 0 0);
    [reflexivity | intros j Hj; lia | vm_compute; discriminate | reflexivity | lia | lia].
Defined.

(** ** What the handler looks at *)

(** The handler's effect on the mailbox is a function of the length code and
    of the data bytes that code covers, and of nothing else in the register
    block.  In particular the time stamp it assembles (from the time stamp
    registers of the transmit window) ends in a local that nothing reads: the
    mailbox carries no time stamp. *)
Theorem CANreceiveISR_discards_timestamp (w : world) (r' : list Z) (L : nat) :
  length (regs w) = MSCAN_SIZE ->
  length r' = MSCAN_SIZE ->
  Z.land (regs w !!! CANRXDLR) CANRXDLR_DLC_MASK = Z.of_nat L ->
  (L <= length (rxbuffer w))%nat ->
  r' !! CANRXDLR = regs w !! CANRXDLR ->
  (forall k, (k < L)%nat -> r' !! (CANRXDSR0 + k)%nat = regs w !! (CANRXDSR0 + k)%nat) ->
  exists w1 w2,
    CANreceiveISR w = Ok tt w1 /\
    CANreceiveISR (set_regs r' w) = Ok tt w2 /\
    rxbuffer w2 = rxbuffer w1 /\
    data_available_flag w2 = data_available_flag w1.
Proof.
  intros Hregs Hr' HL Hbuf Hdlr Hdata.
  destruct (CANreceiveISR_spec w L Hregs HL Hbuf) as (b1 & Hrun1 & Hlen1 & Hin1 & Hout1).
  destruct (CANreceiveISR_spec (set_regs r' w) L) as (b2 & Hrun2 & Hlen2 & Hin2 & Hout2).
  { exact Hr'. }
  { cbn [regs set_regs]. rewrite list_lookup_total_alt, Hdlr, <- list_lookup_total_alt.
    exact HL. }
  { exact Hbuf. }
  cbn [regs rxbuffer set_regs] in Hlen2, Hin2, Hout2.
  eexists _, _. split; [exact Hrun1|]. split; [exact Hrun2|].
  cbn [rxbuffer data_available_flag]. split; [|reflexivity].
  apply list_eq. intros k. destruct (decide (k < L)%nat) as [Hk|Hk].
  - rewrite Hin1, Hin2 by exact Hk. apply Hdata. exact Hk.
  - rewrite Hout1, Hout2 by lia. reflexivity.
Qed.

Lemma CANreceiveISR_discards_timestamp_witness :
  exists w1 w2,
    CANreceiveISR sim_rx_world = Ok tt w1 /\
    CANreceiveISR (set_regs sim_stamped_regs sim_rx_world) = Ok tt w2 /\
    rxbuffer w2 = rxbuffer w1 /\
    data_available_flag w2 = data_available_flag w1.
Proof.
  apply (CANreceiveISR_discards_timestamp sim_rx_world sim_stamped_regs 3);
    [reflexivity | reflexivity | reflexivity | vm_compute; lia | reflexivity
    | intros k Hk; do 3 (destruct k as [|k]; [reflexivity|]); lia].
Defined.

(** ** When a send releases its buffer *)

Lemma land_pow2_testbit (v n : Z) :
  0 <= n -> Z.testbit v n = true -> Z.land v (2 ^ n) = 2 ^ n.
Proof.
  intros Hn Hbit. apply Z.bits_inj'. intros i Hi.
  rewrite Z.land_spec, Z.pow2_bits_eqb by exact Hn.
  destruct (Z.eqb_spec n i) as [->|Hne]; [rewrite Hbit; reflexivity | apply andb_false_r].
Qed.

(** The buffer selected among empty ones is one buffer, and one that was
    empty. *)
Lemma lowest_tx_single (flg : Z) :
  Z.land flg CANTFLG_TXE_MASK <> 0 ->
  (lowest_tx flg = 1 \/ lowest_tx flg = 2 \/ lowest_tx flg = 4) /\
  Z.land flg (lowest_tx flg) = lowest_tx flg.
Proof.
  intros Htxe. unfold lowest_tx.
  destruct (Z.testbit flg 0) eqn:H0;
    [split; [auto | apply (land_pow2_testbit flg 0); [lia | exact H0]]|].
  destruct (Z.testbit flg 1) eqn:H1;
    [split; [auto | apply (land_pow2_testbit flg 1); [lia | exact H1]]|].
  destruct (Z.testbit flg 2) eqn:H2;
    [split; [auto | apply (land_pow2_testbit flg 2); [lia | exact H2]]|].
  destruct Htxe. apply Z.bits_inj'. intros i Hi.
  rewrite Z.land_spec, Z.bits_0.
  destruct (decide (i < 3)) as [Hlt|Hge].
  - assert (i = 0 \/ i = 1 \/ i = 2) as [->|[->| ->]] by lia.
    + rewrite H0. reflexivity.
    + rewrite H1. reflexivity.
    + rewrite H2. reflexivity.
  - change CANTFLG_TXE_MASK with (Z.ones 3).
    rewrite Z.ones_spec_high by lia. apply andb_false_r.
Qed.

Lemma stores_to_tx_copy (payload : list Z) (n : nat) :
  stores_to CANTFLG (tx_copy_events payload n) = [].
Proof.
  unfold tx_copy_events. induction (seq 0 n) as [|i l IH]; [reflexivity|].
  cbn [flat_map]. unfold stores_to in *. rewrite omap_app, IH. cbn.
  destruct (decide ((CANTXDSR0 + i)%nat = CANTFLG)) as [Heq|_]; [|reflexivity].
  unfold CANTXDSR0, CANTFLG in Heq. lia.
Qed.

(** A send hands its buffer to the controller once, and last: of the stores
    it makes, exactly one goes to CANTFLG, it is the final one (identifier,
    data, length and priority are all in the buffer by then), and it carries
    the flag of one buffer only, a buffer that was empty at the call. *)
Theorem CANsend_releases_buffer_last (status : nat -> nat -> Z) (fuel : nat)
    (frame : CANframe.t) (w : world) (flg : Z) (k : nat) :
  length (regs w) = MSCAN_SIZE ->
  regs w !! CANTFLG = Some flg ->
  Z.land flg CANTFLG_TXE_MASK <> 0 ->
  (Z.to_nat (Z.min (CANframe.length frame) 8) <= length (CANframe.payload frame))%nat ->
  Z.land (status (polls w + k)%nat CANTFLG) (lowest_tx flg) = lowest_tx flg ->
  (k < fuel)%nat ->
  exists w' evs b,
    CANsend status fuel frame w = Ok (0, clamp_length frame) w' /\
    trace w' = trace w ++ evs /\
    last evs = Some (EvStore CANTFLG b) /\
    stores_to CANTFLG evs = [b] /\
    (b = 1 \/ b = 2 \/ b = 4) /\
    Z.land flg b = b.
Proof.
  intros Hregs Hflg Htxe Hpay Hdone Hfuel.
  destruct (clamp_length_fields frame) as (_ & _ & _ & Hlen).
  pose proof (CANsend_accepted status fuel frame w flg k Hregs Hflg Htxe) as Hwp.
  rewrite Hlen in Hwp. specialize (Hwp Hpay Hdone Hfuel).
  apply wp_ok in Hwp. destruct Hwp as (res & w' & Hrun & -> & _ & Htrace & _).
  destruct (lowest_tx_single flg Htxe) as [Hone Hwas].
  exists w', (send_events flg frame), (lowest_tx flg).
  split; [exact Hrun|]. split; [exact Htrace|].
  split; [|split; [|split; [exact Hone | exact Hwas]]].
  - unfold send_events.
    change [EvStore CANTXDLR (CANframe.length (clamp_length frame));
            EvStore CANTXTBPR (CANframe.priority (clamp_length frame));
            EvStore CANTFLG (lowest_tx flg)]
      with ([EvStore CANTXDLR (CANframe.length (clamp_length frame));
             EvStore CANTXTBPR (CANframe.priority (clamp_length frame))]
            ++ [EvStore CANTFLG (lowest_tx flg)]).
    rewrite !app_assoc. apply last_snoc.
  - unfold send_events, stores_to. rewrite !omap_app.
    fold (stores_to CANTFLG (tx_copy_events (CANframe.payload frame)
                               (Z.to_nat (CANframe.length (clamp_length frame))))).
    rewrite stores_to_tx_copy. reflexivity.
Qed.

Lemma CANsend_releases_buffer_last_witness :
  exists w' evs b,
    CANsend sim_status 5 sim_frame sim_world = Ok (0, clamp_length sim_frame) w' /\
    trace w' = trace sim_world ++ evs /\
    last evs = Some (EvStore CANTFLG b) /\
    stores_to CANTFLG evs = [b] /\
    (b = 1 \/ b = 2 \/ b = 4) /\
    Z.land 7 b = b.
Proof.
  apply (CANsend_releases_buffer_last sim_status 5 sim_frame sim_world 7 0);
    [reflexivity | reflexivity | vm_compute; discriminate | vm_compute; lia
    | reflexivity | lia].
Defined.
